(** * lego: the ACME request executor and the DNS provider registry

    A shallow embedding of
      - [acme/api/api.go]   (Core, New, post, postAsGet, retrievablePost,
                             signedPost, GetKeyAuthorization, getDirectory),
      - [providers/dns/dns_providers.go] (NewDNSChallengeProviderByName),
      - package [cmd]                    (setupDNS),
    with explicit state passing: the mutable [Core] (its nonce pool) and the
    [World] outside the program (clock, CA and network, log) are threaded
    through every call.  Go's [(value, error)] results are pairs of options,
    because [signedPost] can return a response together with an error. *)

From Stdlib Require Import ZArith NArith QArith Qround List String Ascii Bool Lia Lqa.
Import ListNotations.
Local Open Scope string_scope.
Local Open Scope Z_scope.

(** ** Go base types *)

(** [time.Duration]: a signed 64-bit count of nanoseconds. *)
Definition Duration := Z.

Definition Nanosecond : Duration := 1.
Definition Millisecond : Duration := 1000000 * Nanosecond.
Definition Second : Duration := 1000 * Millisecond.
Definition Minute : Duration := 60 * Second.

(** Two's complement wrap-around of Go's [int64] arithmetic. *)
Definition wrap64 (z : Z) : Z := (z + 2 ^ 63) mod 2 ^ 64 - 2 ^ 63.

Definition Duration_mul (a b : Duration) : Duration := wrap64 (a * b).

(** [[]byte] *)
Definition bytes := list Byte.byte.

(** ** Errors

    Modelled from the spec: the [acme] package is not among the sources.
    "CA errors are JSON problem documents with a type URI (e.g., the
    canonical bad-nonce type) and human-readable detail"; the bad-nonce
    problem has a Go type of its own, [*acme.NonceError], which is what the
    type switch of [retrievablePost] looks at. *)
Record ProblemDetails := {
  Type_ : string;
  Detail : string;
  HTTPStatus : Z
}.

Inductive error :=
| NonceError (p : ProblemDetails)     (* *acme.NonceError *)
| ProblemError (p : ProblemDetails)   (* *acme.ProblemDetails, any other CA problem *)
| errorString (s : string).           (* errors.New, fmt.Errorf, transport errors *)

Definition errors_New (s : string) : error := errorString s.

(** The type switch [case *acme.NonceError]. *)
Definition isNonceError (e : error) : bool :=
  match e with
  | NonceError _ => true
  | _ => false
  end.

(** [err.Error()], as [%v] prints it; a problem document prints its type
    and its detail. *)
Definition Error (e : error) : string :=
  match e with
  | NonceError p | ProblemError p => "acme: error: " ++ Type_ p ++ " :: " ++ Detail p
  | errorString s => s
  end.

(** ** HTTP responses and the directory *)

(** Modelled from the spec: [http.Response] reduced to what the executor
    reads; "responses carry a fresh single-use freshness token in a dedicated
    header on every response"; [ReplayNonce] is that header's value, the empty
    string when the header is absent (Go's [Header.Get]). *)
Record Response := {
  StatusCode : Z;
  ReplayNonce : string;
  Body : string
}.

(** Modelled from the spec: [acme.Directory], "CA-advertised map of resource
    kind -> URL (new-nonce, new-account, new-order, revoke-cert, key-change,
    and optionally an external-account-required flag and meta/terms
    fields)". *)
Record Directory := {
  NewNonceURL : string;
  NewAccountURL : string;
  NewOrderURL : string;
  RevokeCertURL : string;
  KeyChangeURL : string;
  TermsOfService : string;
  ExternalAccountRequired : bool
}.

(** The zero value of [var dir acme.Directory]. *)
Definition Directory_zero : Directory :=
  {| NewNonceURL := ""; NewAccountURL := ""; NewOrderURL := "";
     RevokeCertURL := ""; KeyChangeURL := ""; TermsOfService := "";
     ExternalAccountRequired := false |}.

(** ** The world outside the program *)

Inductive Event :=
| EvGet (url : string)                       (* HTTP GET *)
| EvHead (url : string)                      (* HTTP HEAD, the fresh-nonce fetch *)
| EvPost (url : string) (body : string)      (* HTTP POST of a signed body *)
| EvSign (url : string) (nonce : string)     (* a JWS was produced with this nonce *)
| EvSleep (d : Duration)                     (* the retry timer *)
| EvLog (msg : string)                       (* log.Infof *)
| EvAttempt (err : option error) (t : Z).    (* ghost: the retried closure returned err at time t *)

(** [crypto.PrivateKey]: an account key is only ever handed to the signer. *)
Inductive PrivateKey :=
| RSAKey (material : string)
| ECDSAKey (material : string)
| OtherKey (material : string).

(** What the engine uses "as given primitives": the transport to the CA, the
    JWS signer, the random source of the back-off and the JSON encoder.
    [Env] is the state of everything outside the process; every network call
    also says how long it took (a natural number of nanoseconds, so the
    clock never runs backwards).  [Any] is Go's [interface{}]. *)
Class External (Env Any : Type) := {
  (* sender.Doer.Get(url, &dir): the decoded directory and the error *)
  doer_Get : string -> Env -> (Directory * option error * N) * Env;
  (* sender.Doer.Head(url) *)
  doer_Head : string -> Env -> (option Response * option error * N) * Env;
  (* sender.Doer.Post(url, body, bodyType, response) *)
  doer_Post : string -> string -> string -> Env -> (option Response * option error * N) * Env;
  (* jose: sign content for url with key, kid and nonce and serialize *)
  jose_Sign : PrivateKey -> string -> string -> string -> bytes -> error + string;
  (* jose: HMAC-sign the external account binding for url and kid and serialize *)
  jose_SignEAB : string -> string -> bytes -> error + string;
  (* jose: base64url of the SHA-256 JWK thumbprint of the key *)
  jwk_Thumbprint : PrivateKey -> error + string;
  (* math/rand.Float64: a fraction p/q, read as (p mod q)/q in [0,1) *)
  rand_Float64 : Env -> (N * positive) * Env;
  (* encoding/json.Marshal *)
  json_Marshal : Any -> error + bytes
}.

Section Engine.

Context {Env Any : Type} `{Ext : External Env Any}.

Record World := {
  clock : Z;              (* time.Now(), nanoseconds *)
  env : Env;
  trace : list Event      (* newest first *)
}.

Definition emit (e : Event) (w : World) : World :=
  {| clock := clock w; env := env w; trace := e :: trace w |}.

(** A network call: the environment answers, the clock advances by the
    latency, the call is recorded. *)
Definition Doer_Get (url : string) (w : World) : (Directory * option error) * World :=
  let '((dir, err, lat), e') := doer_Get url (env w) in
  ((dir, err), {| clock := clock w + Z.of_N lat; env := e'; trace := EvGet url :: trace w |}).

Definition Doer_Head (url : string) (w : World) : (option Response * option error) * World :=
  let '((resp, err, lat), e') := doer_Head url (env w) in
  ((resp, err), {| clock := clock w + Z.of_N lat; env := e'; trace := EvHead url :: trace w |}).

Definition Doer_Post (url body bodyType : string) (w : World)
  : (option Response * option error) * World :=
  let '((resp, err, lat), e') := doer_Post url body bodyType (env w) in
  ((resp, err), {| clock := clock w + Z.of_N lat; env := e'; trace := EvPost url body :: trace w |}).

(** ** Nonce manager (package [nonces]) *)

(** Modelled from the spec: the [nonces] package is not among the sources.
    "Nonce Pool: an unbounded set of unused, single-use opaque tokens";
    [Push(nonce)]: "inserts a token into the pool"; [Pop]: "returns a pooled
    nonce if available, else performs a fresh-nonce fetch against the CA's
    dedicated endpoint; fails only if that fetch fails". *)
Record Manager := {
  nonceURL : string;
  nonces : list string
}.

Definition NewManager (nonceURL : string) : Manager :=
  {| nonceURL := nonceURL; nonces := [] |}.

Definition Manager_Push (nonce : string) (n : Manager) : Manager :=
  {| nonceURL := nonceURL n; nonces := nonce :: nonces n |}.

(** Modelled from the spec: "extract any returned nonce" from a response's
    freshness header; there is none when there is no response at all or the
    header is absent. *)
Definition GetFromResponse (resp : option Response) : error + string :=
  match resp with
  | None => inl (errors_New "nil response")
  | Some r =>
      if (ReplayNonce r =? "")%string
      then inl (errors_New "server did not respond with a proper nonce header")
      else inr (ReplayNonce r)
  end.

(** Modelled from the spec: [Pop() -> (nonce, error)], see [Manager]. *)
Definition Manager_Nonce (n : Manager) (w : World) : (error + string) * Manager * World :=
  match nonces n with
  | nonce :: rest => (inr nonce, {| nonceURL := nonceURL n; nonces := rest |}, w)
  | [] =>
      let '((resp, err), w1) := Doer_Head (nonceURL n) w in
      match err with
      | Some e => (inl (errorString ("failed to get nonce from HTTP HEAD -> " ++ Error e)), n, w1)
      | None => (GetFromResponse resp, n, w1)
      end
  end.

(** ** Message signer (package [secure]) *)

Record JWS := {
  privKey : PrivateKey;
  kid : string
}.

(** Modelled from the spec: [secure.JWS.SignContent] is not among the
    sources.  "Pops one nonce, builds a protected header binding {alg, url,
    nonce, kid-or-jwk}, signs payload+header with the account private key,
    and returns the serialized envelope."  The signer shares the Core's nonce
    manager, so the manager is passed in and handed back. *)
Definition JWS_SignContent (j : JWS) (n : Manager) (url : string) (content : bytes) (w : World)
  : (error + string) * Manager * World :=
  let '(r, n1, w1) := Manager_Nonce n w in
  match r with
  | inl e => (inl (errorString ("failed to sign content -> " ++ Error e)), n1, w1)
  | inr nonce =>
      match jose_Sign (privKey j) (kid j) nonce url content with
      | inl e => (inl (errorString ("failed to sign content -> " ++ Error e)), n1, w1)
      | inr signed => (inr signed, n1, emit (EvSign url nonce) w1)
      end
  end.

(** Modelled from the spec: [secure.JWS.GetKeyAuthorization] is not among
    the sources.  "Key Authorization: token || "." || base64url(SHA-256(
    account-key JWK thumbprint))". *)
Definition JWS_GetKeyAuthorization (j : JWS) (token : string) : string * option error :=
  match jwk_Thumbprint (privKey j) with
  | inl e => ("", Some e)
  | inr keyThumb => (token ++ "." ++ keyThumb, None)
  end.

(** ** Core (acme/api/api.go) *)

Record Core := {
  nonceManager : Manager;
  jws : JWS;
  directory : Directory;
  userAgent : string
}.

Definition set_nonceManager (a : Core) (n : Manager) : Core :=
  {| nonceManager := n; jws := jws a; directory := directory a; userAgent := userAgent a |}.

(** [fmt.Errorf] with one [%v] at the end of the format. *)
Definition fmt_Errorf (prefix : string) (v : string) : error := errorString (prefix ++ v).

Definition getDirectory (caDirURL : string) (w : World) : (Directory * option error) * World :=
  let '((dir, err), w1) := Doer_Get caDirURL w in
  match err with
  | Some e =>
      ((dir, Some (errorString ("get directory at '" ++ caDirURL ++ "': " ++ Error e))), w1)
  | None =>
      if (NewAccountURL dir =? "")%string then
        ((dir, Some (errors_New "directory missing new registration URL")), w1)
      else if (NewOrderURL dir =? "")%string then
        ((dir, Some (errors_New "directory missing new order URL")), w1)
      else ((dir, None), w1)
  end.

Definition New (userAgent caDirURL kid : string) (privateKey : PrivateKey) (w : World)
  : (option Core * option error) * World :=
  let '((dir, err), w1) := getDirectory caDirURL w in
  match err with
  | Some e => ((None, Some e), w1)
  | None =>
      let nonceManager := NewManager (NewNonceURL dir) in
      let jws := {| privKey := privateKey; kid := kid |} in
      let c := {| nonceManager := nonceManager; jws := jws; directory := dir;
                  userAgent := userAgent |} in
      ((Some c, None), w1)
  end.

Definition signedPost (a : Core) (uri : string) (content : bytes) (w : World)
  : (option Response * option error) * Core * World :=
  let '(signedContent, n1, w1) := JWS_SignContent (jws a) (nonceManager a) uri content w in
  let a1 := set_nonceManager a n1 in
  match signedContent with
  | inl err =>
      ((None, Some (fmt_Errorf "failed to post JWS message -> failed to sign content -> " (Error err))),
       a1, w1)
  | inr signedBody =>
      let '((resp, err), w2) := Doer_Post uri signedBody "application/jose+json" w1 in
      (* nonceErr is ignored to keep the root error. *)
      match GetFromResponse resp with
      | inr nonce => ((resp, err), set_nonceManager a1 (Manager_Push nonce (nonceManager a1)), w2)
      | inl _ => ((resp, err), a1, w2)
      end
  end.

(** ** Exponential back-off

    The retry loop is the one of the back-off library the executor calls
    (github.com/cenkalti/backoff, a dependency outside the repository,
    imported without a major-version suffix: its v2 line, in which the
    closure stops the loop by cancelling the context).
    [NewExponentialBackOff], [WithContext] and [Retry] are modelled after
    that library, with the clock and the random source taken from the
    world: [NextBackOff] answers [Stop] once more than [MaxElapsedTime] has
    passed since [Reset], and [Retry] returns the last error of the
    operation when the back-off stops.  Floating point is replaced by exact
    rationals.  They agree with binary64 on the retry intervals this program
    configures and on the least wait, half the interval.  They do not on the
    longest wait: for the draws next to 1, binary64 rounds the sum of
    [getRandomValueFromInterval] up and the wait is one nanosecond more than
    one and a half intervals (300000001ns for 200ms), except at the interval
    of 5s, where it is at most 7.5s as it is here.  What is proved of the
    longest wait therefore allows for that nanosecond. *)

Definition Stop : Duration := -1.

Definition DefaultInitialInterval : Duration := 500 * Millisecond.
Definition DefaultRandomizationFactor : Q := 1 # 2.
Definition DefaultMultiplier : Q := 3 # 2.
Definition DefaultMaxInterval : Duration := 60 * Second.
Definition DefaultMaxElapsedTime : Duration := 15 * Minute.

Record ExponentialBackOff := {
  InitialInterval : Duration;
  RandomizationFactor : Q;
  Multiplier : Q;
  MaxInterval : Duration;
  MaxElapsedTime : Duration;
  currentInterval : Duration;
  startTime : Z
}.

Definition set_currentInterval (b : ExponentialBackOff) (d : Duration) : ExponentialBackOff :=
  {| InitialInterval := InitialInterval b; RandomizationFactor := RandomizationFactor b;
     Multiplier := Multiplier b; MaxInterval := MaxInterval b;
     MaxElapsedTime := MaxElapsedTime b; currentInterval := d; startTime := startTime b |}.

Definition Reset (b : ExponentialBackOff) (w : World) : ExponentialBackOff :=
  {| InitialInterval := InitialInterval b; RandomizationFactor := RandomizationFactor b;
     Multiplier := Multiplier b; MaxInterval := MaxInterval b;
     MaxElapsedTime := MaxElapsedTime b; currentInterval := InitialInterval b;
     startTime := clock w |}.

Definition NewExponentialBackOff (w : World) : ExponentialBackOff :=
  Reset {| InitialInterval := DefaultInitialInterval;
           RandomizationFactor := DefaultRandomizationFactor;
           Multiplier := DefaultMultiplier;
           MaxInterval := DefaultMaxInterval;
           MaxElapsedTime := DefaultMaxElapsedTime;
           currentInterval := 0; startTime := 0 |} w.

Definition GetElapsedTime (b : ExponentialBackOff) (w : World) : Duration :=
  clock w - startTime b.

(** [time.Duration(x)] of a float: truncation towards zero. *)
Definition Duration_of_float (x : Q) : Duration := Z.quot (Qnum x) (Zpos (Qden x)).

Definition getRandomValueFromInterval (randomizationFactor random : Q) (currentInterval : Duration)
  : Duration :=
  let delta := (randomizationFactor * inject_Z currentInterval)%Q in
  let minInterval := (inject_Z currentInterval - delta)%Q in
  let maxInterval := (inject_Z currentInterval + delta)%Q in
  Duration_of_float (minInterval + (random * (maxInterval - minInterval + 1)))%Q.

Definition incrementCurrentInterval (b : ExponentialBackOff) : ExponentialBackOff :=
  if Qle_bool (inject_Z (MaxInterval b) / Multiplier b) (inject_Z (currentInterval b))
  then set_currentInterval b (MaxInterval b)
  else set_currentInterval b (Duration_of_float (inject_Z (currentInterval b) * Multiplier b)).

Definition Rand_Float64 (w : World) : Q * World :=
  let '((p, q), e') := rand_Float64 (env w) in
  (Z.of_N p mod Zpos q # q, {| clock := clock w; env := e'; trace := trace w |}).

Definition NextBackOff (b : ExponentialBackOff) (w : World) : Duration * ExponentialBackOff * World :=
  if negb (MaxElapsedTime b =? 0) && (MaxElapsedTime b <? GetElapsedTime b w)
  then (Stop, b, w)
  else
    let '(random, w1) := Rand_Float64 w in
    (getRandomValueFromInterval (RandomizationFactor b) random (currentInterval b),
     incrementCurrentInterval b, w1).

(** The variables of [retrievablePost] that its closure captures: [resp],
    and the context that [cancel] closes. *)
Record Frame := {
  resp : option Response;
  ctx_done : bool
}.

Definition cancel (f : Frame) : Frame := {| resp := resp f; ctx_done := true |}.

(** [WithContext(bo, ctx).NextBackOff()]: a context without a deadline. *)
Definition backOffContext_NextBackOff (b : ExponentialBackOff) (f : Frame) (w : World)
  : Duration * ExponentialBackOff * World :=
  if ctx_done f then (Stop, b, w) else NextBackOff b w.

(** The timer of the retry loop fires after [d]. *)
Definition sleep (d : Duration) (w : World) : World :=
  {| clock := clock w + Z.max 0 d; env := env w; trace := EvSleep d :: trace w |}.

Definition Operation : Type := Frame -> Core -> World -> option error * Frame * Core * World.

(** The [for] loop of [backoff.Retry]; [None] when [fuel] iterations were
    not enough. *)
Fixpoint RetryLoop (fuel : nat) (operation : Operation) (b : ExponentialBackOff)
  (f : Frame) (a : Core) (w : World) : option (option error) * Frame * Core * World :=
  match fuel with
  | O => (None, f, a, w)
  | S fuel' =>
      let '(err, f1, a1, w1) := operation f a w in
      match err with
      | None => (Some None, f1, a1, w1)
      | Some e =>
          let '(next, b1, w2) := backOffContext_NextBackOff b f1 w1 in
          if next =? Stop then (Some (Some e), f1, a1, w2)
          else if ctx_done f1 then (Some (Some e), f1, a1, w2)
          else RetryLoop fuel' operation b1 f1 a1 (sleep next w2)
      end
  end.

Definition Retry (fuel : nat) (operation : Operation) (b : ExponentialBackOff)
  (f : Frame) (a : Core) (w : World) : option (option error) * Frame * Core * World :=
  RetryLoop fuel operation (Reset b w) f a w.

(** ** The retrying executor *)

(** The closure [operation] of [retrievablePost]. *)
Definition operation (uri : string) (content : bytes) : Operation :=
  fun f a w =>
    let '((resp, err), a1, w1) := signedPost a uri content w in
    let f1 := {| resp := resp; ctx_done := ctx_done f |} in
    let w2 := emit (EvAttempt err (clock w1)) w1 in
    match err with
    | Some e =>
        match e with
        (* Retry if the nonce was invalidated *)
        | NonceError _ => (Some e, f1, a1, emit (EvLog ("nonce error retry: " ++ Error e)) w2)
        | _ => (Some e, cancel f1, a1, w2)
        end
    | None => (None, f1, a1, w2)
    end.

(** The back-off that [retrievablePost] configures. *)
Definition retrievablePost_backoff (w : World) : ExponentialBackOff :=
  let bo := NewExponentialBackOff w in
  {| InitialInterval := 200 * Millisecond;
     RandomizationFactor := RandomizationFactor bo;
     Multiplier := Multiplier bo;
     MaxInterval := 5 * Second;
     MaxElapsedTime := 20 * Second;
     currentInterval := currentInterval bo;
     startTime := startTime bo |}.

(** Iterations granted to the loop of [Retry]; [retrievablePost_run] shows
    that the loop never needs more. *)
Definition retry_fuel : nat := 202.

Definition retrievablePost (a : Core) (uri : string) (content : bytes) (w : World)
  : option (option Response * option error) * Core * World :=
  let bo := retrievablePost_backoff w in
  let f := {| resp := None; ctx_done := false |} in
  let '(r, f1, a1, w1) := Retry retry_fuel (operation uri content) bo f a w in
  match r with
  | None => (None, a1, w1)
  | Some (Some err) => (Some (None, Some err), a1, w1)
  | Some None => (Some (resp f1, None), a1, w1)
  end.

(** [post] performs an HTTP POST request and parses the response body as
    JSON. *)
Definition post (a : Core) (uri : string) (reqBody : Any) (w : World)
  : option (option Response * option error) * Core * World :=
  match json_Marshal reqBody with
  | inl _ => (Some (None, Some (errors_New "failed to marshal message")), a, w)
  | inr content => retrievablePost a uri content w
  end.

(** [postAsGet] performs an HTTP POST ("POST-as-GET") request. *)
Definition postAsGet (a : Core) (uri : string) (w : World)
  : option (option Response * option error) * Core * World :=
  retrievablePost a uri [] w.

Definition GetKeyAuthorization (a : Core) (token : string) (w : World)
  : (string * option error) * Core * World :=
  (JWS_GetKeyAuthorization (jws a) token, a, w).

Definition GetDirectory (a : Core) : Directory := directory a.

(** Modelled from the spec: [secure.JWS.SignEABContent] is not among the
    sources; it "signs a lightweight external-account-binding object ...
    using HMAC instead of the account key". *)
Definition JWS_SignEABContent (j : JWS) (url kid : string) (hmac : bytes) : error + string :=
  jose_SignEAB url kid hmac.

Definition signEABContent (a : Core) (newAccountURL kid : string) (hmac : bytes) (w : World)
  : (bytes * option error) * Core * World :=
  match JWS_SignEABContent (jws a) newAccountURL kid hmac with
  | inl err => (([], Some err), a, w)
  | inr eabJWS => ((list_byte_of_string eabJWS, None), a, w)
  end.

(** ** The life of a Core

    The methods of [api.go] that a Core can be asked to run, and a Core's
    life as a sequence of them. *)
Inductive Call :=
| CallPost (uri : string) (reqBody : Any)
| CallPostAsGet (uri : string)
| CallRetrievablePost (uri : string) (content : bytes)
| CallSignedPost (uri : string) (content : bytes)
| CallSignEABContent (newAccountURL kid : string) (hmac : bytes)
| CallGetKeyAuthorization (token : string).

Definition run_call (c : Call) (a : Core) (w : World) : Core * World :=
  match c with
  | CallPost uri reqBody => let '(_, a', w') := post a uri reqBody w in (a', w')
  | CallPostAsGet uri => let '(_, a', w') := postAsGet a uri w in (a', w')
  | CallRetrievablePost uri content =>
      let '(_, a', w') := retrievablePost a uri content w in (a', w')
  | CallSignedPost uri content => let '(_, a', w') := signedPost a uri content w in (a', w')
  | CallSignEABContent url kid hmac =>
      let '(_, a', w') := signEABContent a url kid hmac w in (a', w')
  | CallGetKeyAuthorization token =>
      let '(_, a', w') := GetKeyAuthorization a token w in (a', w')
  end.

Fixpoint run_calls (cs : list Call) (a : Core) (w : World) : Core * World :=
  match cs with
  | [] => (a, w)
  | c :: rest => let '(a', w') := run_call c a w in run_calls rest a' w'
  end.

(** ** Observing a run *)

(** The attempts recorded in a trace, oldest first: the error the closure
    returned and the time at which it returned. *)
Fixpoint attempts (tr : list Event) : list (option error * Z) :=
  match tr with
  | [] => []
  | EvAttempt err t :: rest => attempts rest ++ [(err, t)]
  | _ :: rest => attempts rest
  end.

(** The waits of the retry timer recorded in a trace, oldest first. *)
Fixpoint sleeps (tr : list Event) : list Duration :=
  match tr with
  | [] => []
  | EvSleep d :: rest => sleeps rest ++ [d]
  | _ :: rest => sleeps rest
  end.

(** What happened between the worlds [w] and [w']. *)
Definition since (w w' : World) : list Event :=
  firstn (List.length (trace w') - List.length (trace w)) (trace w').

(** The retry interval before the [k]-th wait: 200ms, multiplied by 1.5
    each time, 5s from the eighth on. *)
Definition interval (k : nat) : Duration :=
  nth k [200000000; 300000000; 450000000; 675000000;
         1012500000; 1518750000; 2278125000; 3417187500] (5 * Second).

(** The back-off of [retrievablePost] before its [k]-th wait, started at
    [t0]. *)
Definition backoff_at (k : nat) (t0 : Z) : ExponentialBackOff :=
  {| InitialInterval := 200 * Millisecond;
     RandomizationFactor := 1 # 2;
     Multiplier := 3 # 2;
     MaxInterval := 5 * Second;
     MaxElapsedTime := 20 * Second;
     currentInterval := interval k;
     startTime := t0 |}.

(** The shape of a run of the retry loop started at [t0]: the attempts,
    oldest first, and the error that the loop returns. *)
Inductive retry_run (t0 : Z) : list (option error * Z) -> option error -> Prop :=
| run_success t :
    retry_run t0 [(None, t)] None
| run_abort e t :
    isNonceError e = false ->
    retry_run t0 [(Some e, t)] (Some e)
| run_exhausted e t :
    isNonceError e = true -> 20 * Second < t - t0 ->
    retry_run t0 [(Some e, t)] (Some e)
| run_retry e t rest r :
    isNonceError e = true -> t - t0 <= 20 * Second ->
    retry_run t0 rest r ->
    retry_run t0 ((Some e, t) :: rest) r.

(** Every wait lies within 50% of its retry interval, the [i]-th wait of
    the list being the [(k+i)]-th of the run. *)
Definition waits_ok (k : nat) (ds : list Duration) : Prop :=
  forall i d, nth_error ds i = Some d ->
    interval (k + i) / 2 <= d <= interval (k + i) + interval (k + i) / 2.

(** "An attempt is retried if and only if it failed with the bad-nonce
    error", read on the attempts of a run: attempt [i] is followed by
    another one exactly when its error is a [*acme.NonceError]. *)
Definition retried_iff_bad_nonce (atts : list (option error * Z)) : Prop :=
  forall i e t, nth_error atts i = Some (Some e, t) ->
    ((S i < List.length atts)%nat <-> isNonceError e = true).

(** "The error returned to the caller is a timeout error, not the bad-nonce
    protocol error itself", read on the result of [retrievablePost]. *)
Definition surfaces_timeout (r : option (option Response * option error)) : Prop :=
  exists resp e, r = Some (resp, Some e) /\ isNonceError e = false.

End Engine.

Arguments World : clear implicits.

(** ** DNS providers (providers/dns/dns_providers.go) *)

(** The provider packages that [dns_providers.go] imports; [pkg_x] stands
    for [github.com/vostronet/lego/providers/dns/x]. *)
Inductive Package :=
| pkg_acmedns
| pkg_alidns
| pkg_auroradns
| pkg_azure
| pkg_bindman
| pkg_bluecat
| pkg_cloudflare
| pkg_cloudns
| pkg_cloudxns
| pkg_conoha
| pkg_designate
| pkg_digitalocean
| pkg_dnsimple
| pkg_dnsmadeeasy
| pkg_dnspod
| pkg_dode
| pkg_dreamhost
| pkg_duckdns
| pkg_dyn
| pkg_easydns
| pkg_exec
| pkg_exoscale
| pkg_fastdns
| pkg_gandi
| pkg_gandiv5
| pkg_gcloud
| pkg_glesys
| pkg_godaddy
| pkg_hostingde
| pkg_httpreq
| pkg_iij
| pkg_inwx
| pkg_joker
| pkg_lightsail
| pkg_linode
| pkg_linodev4
| pkg_mydnsjp
| pkg_namecheap
| pkg_namedotcom
| pkg_netcup
| pkg_nifcloud
| pkg_ns1
| pkg_oraclecloud
| pkg_otc
| pkg_ovh
| pkg_pdns
| pkg_rackspace
| pkg_rfc2136
| pkg_route53
| pkg_sakuracloud
| pkg_selectel
| pkg_stackpath
| pkg_transip
| pkg_vegadns
| pkg_versio
| pkg_vscale
| pkg_vultr
| pkg_zoneee.

(** The constructors live in the provider packages and in [dns01]; they read
    the process environment [PEnv] and may fail.  [Provider] is
    [challenge.Provider]. *)
Class Constructors (Provider PEnv : Type) := {
  (* x.NewDNSProvider() *)
  NewDNSProvider : Package -> PEnv -> (option Provider * option error) * PEnv;
  (* dns01.NewDNSProviderManual() *)
  NewDNSProviderManual : PEnv -> (option Provider * option error) * PEnv
}.

(** Go's [switch] over string constants: the first case equal to the tag
    runs, [default] when there is none. *)
Fixpoint switch {A : Type} (tag : string) (cases : list (string * A)) (default : A) : A :=
  match cases with
  | [] => default
  | (c, body) :: rest => if (tag =? c)%string then body else switch tag rest default
  end.

Section Providers.

Context {Provider PEnv : Type} `{Ctors : Constructors Provider PEnv}.

Definition ProviderResult : Type := PEnv -> (option Provider * option error) * PEnv.

(** The cases of the switch of [NewDNSChallengeProviderByName], in the order
    of the source. *)
Definition providerCases : list (string * ProviderResult) :=
  [
    ("acme-dns", NewDNSProvider pkg_acmedns);
    ("alidns", NewDNSProvider pkg_alidns);
    ("azure", NewDNSProvider pkg_azure);
    ("auroradns", NewDNSProvider pkg_auroradns);
    ("bindman", NewDNSProvider pkg_bindman);
    ("bluecat", NewDNSProvider pkg_bluecat);
    ("cloudflare", NewDNSProvider pkg_cloudflare);
    ("cloudns", NewDNSProvider pkg_cloudns);
    ("cloudxns", NewDNSProvider pkg_cloudxns);
    ("conoha", NewDNSProvider pkg_conoha);
    ("designate", NewDNSProvider pkg_designate);
    ("digitalocean", NewDNSProvider pkg_digitalocean);
    ("dnsimple", NewDNSProvider pkg_dnsimple);
    ("dnsmadeeasy", NewDNSProvider pkg_dnsmadeeasy);
    ("dnspod", NewDNSProvider pkg_dnspod);
    ("dode", NewDNSProvider pkg_dode);
    ("dreamhost", NewDNSProvider pkg_dreamhost);
    ("duckdns", NewDNSProvider pkg_duckdns);
    ("dyn", NewDNSProvider pkg_dyn);
    ("fastdns", NewDNSProvider pkg_fastdns);
    ("easydns", NewDNSProvider pkg_easydns);
    ("exec", NewDNSProvider pkg_exec);
    ("exoscale", NewDNSProvider pkg_exoscale);
    ("gandi", NewDNSProvider pkg_gandi);
    ("gandiv5", NewDNSProvider pkg_gandiv5);
    ("glesys", NewDNSProvider pkg_glesys);
    ("gcloud", NewDNSProvider pkg_gcloud);
    ("godaddy", NewDNSProvider pkg_godaddy);
    ("hostingde", NewDNSProvider pkg_hostingde);
    ("httpreq", NewDNSProvider pkg_httpreq);
    ("iij", NewDNSProvider pkg_iij);
    ("inwx", NewDNSProvider pkg_inwx);
    ("joker", NewDNSProvider pkg_joker);
    ("lightsail", NewDNSProvider pkg_lightsail);
    ("linode", NewDNSProvider pkg_linode);
    ("linodev4", NewDNSProvider pkg_linodev4);
    ("manual", NewDNSProviderManual);
    ("mydnsjp", NewDNSProvider pkg_mydnsjp);
    ("namecheap", NewDNSProvider pkg_namecheap);
    ("namedotcom", NewDNSProvider pkg_namedotcom);
    ("netcup", NewDNSProvider pkg_netcup);
    ("nifcloud", NewDNSProvider pkg_nifcloud);
    ("ns1", NewDNSProvider pkg_ns1);
    ("oraclecloud", NewDNSProvider pkg_oraclecloud);
    ("otc", NewDNSProvider pkg_otc);
    ("ovh", NewDNSProvider pkg_ovh);
    ("pdns", NewDNSProvider pkg_pdns);
    ("rackspace", NewDNSProvider pkg_rackspace);
    ("route53", NewDNSProvider pkg_route53);
    ("rfc2136", NewDNSProvider pkg_rfc2136);
    ("sakuracloud", NewDNSProvider pkg_sakuracloud);
    ("stackpath", NewDNSProvider pkg_stackpath);
    ("selectel", NewDNSProvider pkg_selectel);
    ("transip", NewDNSProvider pkg_transip);
    ("vegadns", NewDNSProvider pkg_vegadns);
    ("versio", NewDNSProvider pkg_versio);
    ("vultr", NewDNSProvider pkg_vultr);
    ("vscale", NewDNSProvider pkg_vscale);
    ("zoneee", NewDNSProvider pkg_zoneee)
  ].

(** [NewDNSChallengeProviderByName] Factory for DNS providers *)
Definition NewDNSChallengeProviderByName (name : string) : ProviderResult :=
  switch name providerCases
    (fun penv => ((None, Some (fmt_Errorf "unrecognized DNS provider: " name)), penv)).

End Providers.

(** ** Challenge set-up (package [cmd]) *)

(** [*cli.Context] (urfave/cli): the global flags as the command line gave
    them.  [GlobalInt] returns Go's [int], 64 bits wide. *)
Record cli_Context := {
  GlobalString : string -> string;
  GlobalStringSlice : string -> list string;
  GlobalBool : string -> bool;
  GlobalIsSet : string -> bool;
  GlobalInt : string -> Z
}.

(** [time.Duration(n)] of an [int]. *)
Definition Duration_of_int (n : Z) : Duration := wrap64 n.

(** [log.Fatal] ends the process; otherwise the function returns. *)
Inductive Exit (A : Type) :=
| Fatal (err : error)
| Return (a : A).
Arguments Fatal {A} _.
Arguments Return {A} _.

(** Modelled from the spec: the [dns01] package is not among the sources.
    The DNS-01 settings that the "configuration surface" reaches: "enable/
    disable full-propagation requirement; extra recursive nameservers to
    query in addition to authoritative ones; propagation poll timeout". *)
Record Challenge := {
  requireCompletePropagation : bool;
  recursiveNameservers : list string;
  dnsTimeout : Duration
}.

(** Modelled from the spec: the options of [dns01] that [setupDNS] builds,
    one per entry of the configuration surface, and [NoOp], the option that
    [CondOption] yields for a false condition. *)
Inductive ChallengeOption :=
| AddRecursiveNameservers (nameservers : list string)
| DisableCompletePropagationRequirement
| AddDNSTimeout (timeout : Duration)
| NoOp.

(** Modelled from the spec: [dns01.CondOption], an option that is in force
    only under its condition. *)
Definition CondOption (condition : bool) (opt : ChallengeOption) : ChallengeOption :=
  if condition then opt else NoOp.

(** Modelled from the spec: what an option does to the settings. *)
Definition applyOption (chlg : Challenge) (opt : ChallengeOption) : Challenge :=
  match opt with
  | AddRecursiveNameservers nameservers =>
      {| requireCompletePropagation := requireCompletePropagation chlg;
         recursiveNameservers := nameservers;
         dnsTimeout := dnsTimeout chlg |}
  | DisableCompletePropagationRequirement =>
      {| requireCompletePropagation := false;
         recursiveNameservers := recursiveNameservers chlg;
         dnsTimeout := dnsTimeout chlg |}
  | AddDNSTimeout timeout =>
      {| requireCompletePropagation := requireCompletePropagation chlg;
         recursiveNameservers := recursiveNameservers chlg;
         dnsTimeout := timeout |}
  | NoOp => chlg
  end.

Section Setup.

Context {Provider PEnv : Type} `{Ctors : Constructors Provider PEnv}.

(** [dns01.ParseNameservers], which is not among the sources, stays a
    parameter. *)
Variable ParseNameservers : list string -> list string.

(** Modelled from the spec: [lego.Client] reduced to its DNS-01 solver, the
    provider "selected by name at configuration time" and its settings. *)
Record Client := {
  dns01Provider : option Provider;
  dns01Challenge : Challenge
}.

(** Modelled from the spec: [client.Challenge.SetDNS01Provider(p, opts...)]
    installs the provider and puts the options in force, in order. *)
Definition SetDNS01Provider (client : Client) (p : option Provider) (opts : list ChallengeOption)
  : Client * option error :=
  ({| dns01Provider := p; dns01Challenge := fold_left applyOption opts (dns01Challenge client) |},
   None).

(** The options that [setupDNS] hands to [SetDNS01Provider]. *)
Definition setupDNS_options (ctx : cli_Context) : list ChallengeOption :=
  let servers := GlobalStringSlice ctx "dns.resolvers" in
  [ CondOption (0 <? Z.of_nat (List.length servers))
      (AddRecursiveNameservers (ParseNameservers (GlobalStringSlice ctx "dns.resolvers")));
    CondOption (GlobalBool ctx "dns.disable-cp")
      DisableCompletePropagationRequirement;
    CondOption (GlobalIsSet ctx "dns-timeout")
      (AddDNSTimeout (Duration_mul (Duration_of_int (GlobalInt ctx "dns-timeout")) Second)) ].

Definition setupDNS (ctx : cli_Context) (client : Client) (penv : PEnv) : Exit Client * PEnv :=
  let '((provider, err), penv1) := NewDNSChallengeProviderByName (GlobalString ctx "dns") penv in
  match err with
  | Some e => (Fatal e, penv1)
  | None =>
      let '(client1, err) := SetDNS01Provider client provider (setupDNS_options ctx) in
      match err with
      | Some e => (Fatal e, penv1)
      | None => (Return client1, penv1)
      end
  end.

(** "A DNS timeout (the configured number of seconds) is applied", read on
    the client that [setupDNS] leaves: the timeout in force is the value of
    the flag, in seconds. *)
Definition timeout_is_configured_seconds (ctx : cli_Context) (client' : Client) : Prop :=
  dnsTimeout (dns01Challenge client') = GlobalInt ctx "dns-timeout" * Second.

End Setup.

(** A list of strings without repetition, decided by comparison. *)
Fixpoint distinct (l : list string) : bool :=
  match l with
  | [] => true
  | x :: rest => negb (existsb (String.eqb x) rest) && distinct rest
  end.

(** ** A scripted CA

    A concrete environment for running the engine: the CA answers POSTs from
    a script and then with a fixed reply, the random source always draws 0,
    the signer accepts RSA and ECDSA keys, and a Go channel is the value that
    JSON cannot encode. *)
Module Mock.

Inductive GoValue :=
| GoString (s : string)
| GoChan.

Definition Reply : Type := option Response * option error * N.

Record CA := {
  script : list Reply;          (* replies to the next POSTs *)
  fallback : Reply;             (* reply once the script is used up *)
  headReply : Reply;            (* reply to the fresh-nonce fetch *)
  dirReply : Directory * option error * N
}.

Definition post_reply (ca : CA) : Reply * CA :=
  match script ca with
  | r :: rest =>
      (r, {| script := rest; fallback := fallback ca; headReply := headReply ca;
             dirReply := dirReply ca |})
  | [] => (fallback ca, ca)
  end.

Definition sign (key : PrivateKey) (kid nonce url : string) (content : bytes) : error + string :=
  match key with
  | RSAKey _ | ECDSAKey _ => inr ("jws:" ++ kid ++ ":" ++ nonce ++ ":" ++ url)
  | OtherKey _ => inl (errorString "unsupported key type")
  end.

Definition thumbprint (key : PrivateKey) : error + string :=
  match key with
  | RSAKey m | ECDSAKey m => inr ("thumb-" ++ m)
  | OtherKey _ => inl (errorString "unknown key type")
  end.

Definition marshal (v : GoValue) : error + bytes :=
  match v with
  | GoString s => inr (list_byte_of_string s)
  | GoChan => inl (errorString "json: unsupported type: chan int")
  end.

#[export] Instance external : External CA GoValue := {
  doer_Get := fun _ ca => (dirReply ca, ca);
  doer_Head := fun _ ca => (headReply ca, ca);
  doer_Post := fun _ _ _ ca => post_reply ca;
  jose_Sign := sign;
  jose_SignEAB := fun url kid hmac => inr ("eab:" ++ kid ++ ":" ++ url);
  jwk_Thumbprint := thumbprint;
  rand_Float64 := fun ca => ((0%N, 1%positive), ca);
  json_Marshal := marshal
}.

Definition badNonce : error :=
  NonceError {| Type_ := "urn:ietf:params:acme:error:badNonce";
                Detail := "JWS has an invalid anti-replay nonce";
                HTTPStatus := 400 |}.

Definition rateLimited : error :=
  ProblemError {| Type_ := "urn:ietf:params:acme:error:rateLimited";
                  Detail := "too many requests";
                  HTTPStatus := 429 |}.

Definition response (status : Z) (nonce : string) : Response :=
  {| StatusCode := status; ReplayNonce := nonce; Body := "{}" |}.

Definition dir : Directory :=
  {| NewNonceURL := "https://ca.test/nonce";
     NewAccountURL := "https://ca.test/acct";
     NewOrderURL := "https://ca.test/order";
     RevokeCertURL := "https://ca.test/revoke";
     KeyChangeURL := "https://ca.test/key-change";
     TermsOfService := "";
     ExternalAccountRequired := false |}.

(** A CA whose every POST is answered, after [latency], with bad-nonce and a
    fresh nonce. *)
Definition alwaysBadNonce (latency : N) : CA :=
  {| script := [];
     fallback := (Some (response 400 "n-next"), Some badNonce, latency);
     headReply := (Some (response 200 "n-head"), None, 0%N);
     dirReply := (dir, None, 0%N) |}.

(** A CA that answers the POSTs of [rs] in turn and then succeeds. *)
Definition scripted (rs : list Reply) : CA :=
  {| script := rs;
     fallback := (Some (response 200 "n-ok"), None, 0%N);
     headReply := (Some (response 200 "n-head"), None, 0%N);
     dirReply := (dir, None, 0%N) |}.

Definition core (key : PrivateKey) (pool : list string) : Core :=
  {| nonceManager := {| nonceURL := NewNonceURL dir; nonces := pool |};
     jws := {| privKey := key; kid := "kid-1" |};
     directory := dir;
     userAgent := "lego-test" |}.

Definition world (ca : CA) : World CA :=
  {| clock := 0; env := ca; trace := [] |}.

Definition acct : Core := core (RSAKey "k") ["n0"].

Definition orderURL : string := "https://ca.test/order".

(** The CA needs 21s to answer, with bad-nonce. *)
Definition run_slow_bad_nonce :=
  retrievablePost acct orderURL [] (world (alwaysBadNonce 21000000000)).

(** The CA answers at once, always with bad-nonce. *)
Definition run_always_bad_nonce :=
  retrievablePost acct orderURL [] (world (alwaysBadNonce 0)).

(** The CA answers bad-nonce once; then the connection is refused. *)
Definition refusing : CA :=
  scripted [ (Some (response 400 "n1"), Some badNonce, 5%N);
             (None, Some (errorString "dial tcp: connection refused"), 7%N) ].

Definition run_bad_nonce_then_refused :=
  retrievablePost acct orderURL [] (world refusing).

(** The CA rejects the request as rate-limited, with a fresh nonce. *)
Definition limiting : CA :=
  scripted [ (Some (response 429 "n-fresh"), Some rateLimited, 3%N) ].

(** A directory without the new-order URL. *)
Definition dir_without_order : Directory :=
  {| NewNonceURL := "https://ca.test/nonce";
     NewAccountURL := "https://ca.test/acct";
     NewOrderURL := "";
     RevokeCertURL := "";
     KeyChangeURL := "";
     TermsOfService := "";
     ExternalAccountRequired := false |}.

Definition serving (d : Directory) : CA :=
  {| script := [];
     fallback := (Some (response 200 "n-ok"), None, 0%N);
     headReply := (Some (response 200 "n-head"), None, 0%N);
     dirReply := (d, None, 2%N) |}.

(** The command line [--dns dns --dns.resolvers ... --dns.disable-cp
    --dns-timeout timeout]. *)
Definition ctx (dns : string) (resolvers : list string) (disableCP timeoutSet : bool)
  (timeout : Z) : cli_Context :=
  {| GlobalString := fun n => if (n =? "dns")%string then dns else "";
     GlobalStringSlice := fun n => if (n =? "dns.resolvers")%string then resolvers else [];
     GlobalBool := fun n => if (n =? "dns.disable-cp")%string then disableCP else false;
     GlobalIsSet := fun n => if (n =? "dns-timeout")%string then timeoutSet else false;
     GlobalInt := fun n => if (n =? "dns-timeout")%string then timeout else 0 |}.

(** Providers that remember their constructor; the process environment is
    the list of constructors called so far. *)
Inductive Provider :=
| Vendor (p : Package)
| Manual.

#[export] Instance constructors : Constructors Provider (list Provider) := {
  NewDNSProvider := fun p penv => ((Some (Vendor p), None), Vendor p :: penv);
  NewDNSProviderManual := fun penv => ((Some Manual, None), Manual :: penv)
}.

(** [dns01.ParseNameservers] here adds the default port. *)
Definition parse (servers : list string) : list string :=
  map (fun s => s ++ ":53") servers.

Definition client0 : Client (Provider := Provider) :=
  {| dns01Provider := None;
     dns01Challenge := {| requireCompletePropagation := true;
                          recursiveNameservers := ["127.0.0.1:53"];
                          dnsTimeout := 10 * Second |} |}.

(** [--dns cloudflare --dns.resolvers 8.8.8.8 --dns.disable-cp --dns-timeout 30] *)
Definition ctx_all : cli_Context := ctx "cloudflare" ["8.8.8.8"] true true 30.

(** [--dns manual --dns-timeout 10000000000] *)
Definition ctx_huge_timeout : cli_Context := ctx "manual" [] false true 10000000000.

End Mock.

(** ** The registry as a table *)

Scheme Equality for Package.

(** The cases of the switch once more, as data: the name of each case and
    the package whose [NewDNSProvider] it calls, [None] for the case that
    calls [dns01.NewDNSProviderManual]. *)
Definition providerPackages : list (string * option Package) :=
  [
    ("acme-dns", Some pkg_acmedns);
    ("alidns", Some pkg_alidns);
    ("azure", Some pkg_azure);
    ("auroradns", Some pkg_auroradns);
    ("bindman", Some pkg_bindman);
    ("bluecat", Some pkg_bluecat);
    ("cloudflare", Some pkg_cloudflare);
    ("cloudns", Some pkg_cloudns);
    ("cloudxns", Some pkg_cloudxns);
    ("conoha", Some pkg_conoha);
    ("designate", Some pkg_designate);
    ("digitalocean", Some pkg_digitalocean);
    ("dnsimple", Some pkg_dnsimple);
    ("dnsmadeeasy", Some pkg_dnsmadeeasy);
    ("dnspod", Some pkg_dnspod);
    ("dode", Some pkg_dode);
    ("dreamhost", Some pkg_dreamhost);
    ("duckdns", Some pkg_duckdns);
    ("dyn", Some pkg_dyn);
    ("fastdns", Some pkg_fastdns);
    ("easydns", Some pkg_easydns);
    ("exec", Some pkg_exec);
    ("exoscale", Some pkg_exoscale);
    ("gandi", Some pkg_gandi);
    ("gandiv5", Some pkg_gandiv5);
    ("glesys", Some pkg_glesys);
    ("gcloud", Some pkg_gcloud);
    ("godaddy", Some pkg_godaddy);
    ("hostingde", Some pkg_hostingde);
    ("httpreq", Some pkg_httpreq);
    ("iij", Some pkg_iij);
    ("inwx", Some pkg_inwx);
    ("joker", Some pkg_joker);
    ("lightsail", Some pkg_lightsail);
    ("linode", Some pkg_linode);
    ("linodev4", Some pkg_linodev4);
    ("manual", None);
    ("mydnsjp", Some pkg_mydnsjp);
    ("namecheap", Some pkg_namecheap);
    ("namedotcom", Some pkg_namedotcom);
    ("netcup", Some pkg_netcup);
    ("nifcloud", Some pkg_nifcloud);
    ("ns1", Some pkg_ns1);
    ("oraclecloud", Some pkg_oraclecloud);
    ("otc", Some pkg_otc);
    ("ovh", Some pkg_ovh);
    ("pdns", Some pkg_pdns);
    ("rackspace", Some pkg_rackspace);
    ("route53", Some pkg_route53);
    ("rfc2136", Some pkg_rfc2136);
    ("sakuracloud", Some pkg_sakuracloud);
    ("stackpath", Some pkg_stackpath);
    ("selectel", Some pkg_selectel);
    ("transip", Some pkg_transip);
    ("vegadns", Some pkg_vegadns);
    ("versio", Some pkg_versio);
    ("vultr", Some pkg_vultr);
    ("vscale", Some pkg_vscale);
    ("zoneee", Some pkg_zoneee)
  ].

(** The name under which a package is registered: that of the first case
    that calls its constructor. *)
Definition Package_name (p : Package) : string :=
  match find (fun np => match snd np with
                        | Some q => Package_beq q p
                        | None => false
                        end) providerPackages with
  | Some np => fst np
  | None => ""
  end.

(** ** The other challenges (package [cmd]) *)

(** What [setupHTTPProvider] and [setupTLSProvider] call: the constructors
    of the HTTP-01 and TLS-ALPN-01 providers, which live in packages that
    are not among the sources, and [net.SplitHostPort]. *)
Class Solvers (Provider PEnv : Type) := {
  (* webroot.NewHTTPProvider(path) *)
  webroot_NewHTTPProvider : string -> PEnv -> (option Provider * option error) * PEnv;
  (* memcached.NewMemcachedProvider(hosts) *)
  memcached_NewMemcachedProvider :
    list string -> PEnv -> (option Provider * option error) * PEnv;
  (* http01.NewProviderServer(iface, port) *)
  http01_NewProviderServer : string -> string -> Provider;
  (* tlsalpn01.NewProviderServer(iface, port) *)
  tlsalpn01_NewProviderServer : string -> string -> Provider;
  (* net.SplitHostPort(hostport) *)
  net_SplitHostPort : string -> (string * string) * option error
}.

(** [strings.Contains(s, substr)] *)
Definition strings_Contains (s substr : string) : bool :=
  match index 0 substr s with
  | Some _ => true
  | None => false
  end.

(** A command of the set-up: it runs in the process environment and either
    returns or ends the process with [log.Fatal]. *)
Definition Cmd (PEnv A : Type) : Type := PEnv -> Exit A * PEnv.

Definition cmd_ret {PEnv A : Type} (x : A) : Cmd PEnv A := fun penv => (Return x, penv).

Definition log_Fatal {PEnv A : Type} (err : error) : Cmd PEnv A := fun penv => (Fatal err, penv).

Definition cmd_bind {PEnv A B : Type} (m : Cmd PEnv A) (k : A -> Cmd PEnv B) : Cmd PEnv B :=
  fun penv =>
    match m penv with
    | (Fatal err, penv1) => (Fatal err, penv1)
    | (Return x, penv1) => k x penv1
    end.

Declare Scope cmd_scope.
Delimit Scope cmd_scope with cmd.
Notation "x <- m ;; k" := (cmd_bind m (fun x => k))
  (at level 61, m at next level, right associativity) : cmd_scope.

(** [v, err := f(); if err != nil { log.Fatal(err) }] *)
Definition orFatal {PEnv A : Type} (m : PEnv -> (A * option error) * PEnv) : Cmd PEnv A :=
  fun penv =>
    let '((x, err), penv1) := m penv in
    match err with
    | Some e => (Fatal e, penv1)
    | None => (Return x, penv1)
    end.

Section Challenges.

Context {Provider PEnv : Type} `{Ctors : Constructors Provider PEnv}
        `{Solv : Solvers Provider PEnv}.

Variable ParseNameservers : list string -> list string.

Local Open Scope cmd_scope.

Definition setupHTTPProvider (ctx : cli_Context) : Cmd PEnv (option Provider) :=
  if GlobalIsSet ctx "http.webroot" then
    orFatal (webroot_NewHTTPProvider (GlobalString ctx "http.webroot"))
  else if GlobalIsSet ctx "http.memcached-host" then
    orFatal (memcached_NewMemcachedProvider (GlobalStringSlice ctx "http.memcached-host"))
  else if GlobalIsSet ctx "http.port" then
    let iface := GlobalString ctx "http.port" in
    if negb (strings_Contains iface ":") then
      log_Fatal (errorString
        "The --http switch only accepts interface:port or :port for its argument.")
    else
      hp <- orFatal (fun penv => (net_SplitHostPort iface, penv)) ;;
      cmd_ret (Some (http01_NewProviderServer (fst hp) (snd hp)))
  else if GlobalBool ctx "http" then
    cmd_ret (Some (http01_NewProviderServer "" ""))
  else
    log_Fatal (errorString "Invalid HTTP challenge options.").

Definition setupTLSProvider (ctx : cli_Context) : Cmd PEnv (option Provider) :=
  if GlobalIsSet ctx "tls.port" then
    let iface := GlobalString ctx "tls.port" in
    if negb (strings_Contains iface ":") then
      log_Fatal (errorString
        "The --tls switch only accepts interface:port or :port for its argument.")
    else
      hp <- orFatal (fun penv => (net_SplitHostPort iface, penv)) ;;
      cmd_ret (Some (tlsalpn01_NewProviderServer (fst hp) (snd hp)))
  else if GlobalBool ctx "tls" then
    cmd_ret (Some (tlsalpn01_NewProviderServer "" ""))
  else
    log_Fatal (errorString "Invalid HTTP challenge options.").

(** Modelled from the spec: [lego.Client] with its three challenge
    responders; the DNS-01 part is the [Client] of [setupDNS]. *)
Record LegoClient := {
  http01Solver : option Provider;
  tlsalpn01Solver : option Provider;
  dnsClient : Client (Provider := Provider)
}.

(** Modelled from the spec: [client.Challenge.SetHTTP01Provider(p)] and
    [SetTLSALPN01Provider(p)], which are not among the sources, install the
    provider of their challenge type. *)
Definition SetHTTP01Provider (client : LegoClient) (p : option Provider)
  : LegoClient * option error :=
  ({| http01Solver := p; tlsalpn01Solver := tlsalpn01Solver client;
      dnsClient := dnsClient client |}, None).

Definition SetTLSALPN01Provider (client : LegoClient) (p : option Provider)
  : LegoClient * option error :=
  ({| http01Solver := http01Solver client; tlsalpn01Solver := p;
      dnsClient := dnsClient client |}, None).

Definition set_dnsClient (client : LegoClient) (c : Client (Provider := Provider))
  : LegoClient :=
  {| http01Solver := http01Solver client; tlsalpn01Solver := tlsalpn01Solver client;
     dnsClient := c |}.

Definition no_challenge_selected : error :=
  errorString
    "No challenge selected. You must specify at least one challenge: `--http`, `--tls`, `--dns`.".

Definition setupChallenges (ctx : cli_Context) (client : LegoClient) : Cmd PEnv LegoClient :=
  if negb (GlobalBool ctx "http") && negb (GlobalBool ctx "tls")
     && negb (GlobalIsSet ctx "dns")
  then log_Fatal no_challenge_selected
  else
    client1 <- (if GlobalBool ctx "http" then
                  p <- setupHTTPProvider ctx ;;
                  orFatal (fun penv => (SetHTTP01Provider client p, penv))
                else cmd_ret client) ;;
    client2 <- (if GlobalBool ctx "tls" then
                  p <- setupTLSProvider ctx ;;
                  orFatal (fun penv => (SetTLSALPN01Provider client1 p, penv))
                else cmd_ret client1) ;;
    if GlobalIsSet ctx "dns" then
      c <- setupDNS ParseNameservers ctx (dnsClient client2) ;;
      cmd_ret (set_dnsClient client2 c)
    else cmd_ret client2.

End Challenges.

(** Providers and a process environment for running the set-up: a provider
    remembers how it was made, the environment lists the constructors
    called. *)
Module MockCmd.

Inductive Solver :=
| Dns (name : string)
| Webroot (path : string)
| Memcached (hosts : list string)
| HTTPServer (host port : string)
| TLSServer (host port : string).

(** Splits at the first colon; an address without one is an error. *)
Definition splitHostPort (hostport : string) : (string * string) * option error :=
  match index 0 ":" hostport with
  | Some i =>
      ((substring 0 i hostport,
        substring (S i) (String.length hostport - S i) hostport), None)
  | None => (("", ""), Some (errorString "missing port in address"))
  end.

#[export] Instance constructors : Constructors Solver (list string) := {
  NewDNSProvider := fun p penv => ((Some (Dns (Package_name p)), None), Package_name p :: penv);
  NewDNSProviderManual := fun penv => ((Some (Dns "manual"), None), "manual" :: penv)
}.

(** The webroot must exist: only "/var/www" does. *)
#[export] Instance solvers : Solvers Solver (list string) := {
  webroot_NewHTTPProvider := fun path penv =>
    if (path =? "/var/www")%string
    then ((Some (Webroot path), None), "webroot" :: penv)
    else ((None, Some (errorString "webroot path does not exist")), "webroot" :: penv);
  memcached_NewMemcachedProvider := fun hosts penv =>
    ((Some (Memcached hosts), None), "memcached" :: penv);
  http01_NewProviderServer := HTTPServer;
  tlsalpn01_NewProviderServer := TLSServer;
  net_SplitHostPort := splitHostPort
}.

Definition client0 : LegoClient (Provider := Solver) :=
  {| http01Solver := None; tlsalpn01Solver := None;
     dnsClient := {| dns01Provider := None;
                     dns01Challenge := {| requireCompletePropagation := true;
                                          recursiveNameservers := [];
                                          dnsTimeout := 10 * Second |} |} |}.

(** A command line given by the flags that are set, with their values. *)
Definition flags (set : list (string * string)) (on : list string) : cli_Context :=
  {| GlobalString := fun n =>
       match find (fun kv => (fst kv =? n)%string) set with
       | Some kv => snd kv
       | None => ""
       end;
     GlobalStringSlice := fun n =>
       match find (fun kv => (fst kv =? n)%string) set with
       | Some kv => [snd kv]
       | None => []
       end;
     GlobalBool := fun n => existsb (String.eqb n) on;
     GlobalIsSet := fun n =>
       existsb (fun kv => (fst kv =? n)%string) set || existsb (String.eqb n) on;
     GlobalInt := fun n => 0 |}.

End MockCmd.

(** ** More to observe in a run *)

Definition isPost (e : Event) : bool :=
  match e with
  | EvPost _ _ => true
  | _ => false
  end.

Definition isHead (e : Event) : bool :=
  match e with
  | EvHead _ => true
  | _ => false
  end.

(** The POSTs and the fresh-nonce fetches recorded in a trace. *)
Definition posts (tr : list Event) : list Event := filter isPost tr.

Definition heads (tr : list Event) : list Event := filter isHead tr.

(** The time spent in a list of waits. *)
Definition total (ds : list Duration) : Duration := fold_right Z.add 0 ds.

(** The least time that [k] waits of [retrievablePost] take: half of each
    of the first [k] retry intervals. *)
Fixpoint least_elapsed (k : nat) : Duration :=
  match k with
  | O => 0
  | S k' => least_elapsed k' + interval k' / 2
  end.

(** The most attempts one call of [retrievablePost] can make. *)
Definition max_attempts : nat := 16.

(** The most time one call of [retrievablePost] can spend waiting: the
    budget of 20s and one last wait of at most 7.5s. *)
Definition max_waiting : Duration := 27500 * Millisecond.



(** A CA that puts a nonce on the response to every POST, as ACME asks for
    ("responses carry a fresh single-use freshness token ... on every
    response, success or error"). *)
Definition nonce_on_every_response {Env Any : Type} `{Ext : External Env Any} : Prop :=
  forall (url body bodyType : string) (e : Env),
    exists r, fst (fst (fst (doer_Post url body bodyType e))) = Some r /\
              ReplayNonce r <> ""%string.

(** A CA for which [nonce_on_every_response] holds in every state: the
    state counts the POSTs, each is answered with bad-nonce and a nonce. *)
Module MockFresh.

#[export] Instance external : External nat Mock.GoValue := {
  doer_Get := fun _ n => ((Mock.dir, None, 0%N), n);
  doer_Head := fun _ n => ((Some (Mock.response 200 "n-head"), None, 1000000%N), n);
  doer_Post := fun _ _ _ n =>
    ((Some (Mock.response 400 "n-next"), Some Mock.badNonce, 1000000000%N), S n);
  jose_Sign := Mock.sign;
  jose_SignEAB := fun url kid hmac => inr ("eab:" ++ kid ++ ":" ++ url);
  jwk_Thumbprint := Mock.thumbprint;
  rand_Float64 := fun n => ((1%N, 2%positive), n);
  json_Marshal := Mock.marshal
}.

Definition world : World nat := {| clock := 0; env := 0%nat; trace := [] |}.

(** The Core starts with an empty nonce pool. *)
Definition run :=
  retrievablePost (Mock.core (RSAKey "k") []) Mock.orderURL [] world.

End MockFresh.

(** * Properties of the engine *)

Section EngineFacts.

Context {Env Any : Type} `{Ext : External Env Any}.

Local Abbreviation World := (World Env).
Local Open Scope list_scope.

Implicit Types (a : Core) (w : World) (uri : string) (content : bytes).

(** Linear arithmetic over durations written with their units. *)
Ltac time_lia := unfold Minute, Second, Millisecond, Nanosecond in *; lia.

(** ** Traces *)

Lemma attempts_app (l1 l2 : list Event) :
  attempts (l1 ++ l2) = attempts l2 ++ attempts l1.
Proof.
  induction l1 as [|e l1 IH]; simpl.
  - now rewrite app_nil_r.
  - destruct e; auto. rewrite IH. now rewrite app_assoc.
Qed.

Lemma sleeps_app (l1 l2 : list Event) :
  sleeps (l1 ++ l2) = sleeps l2 ++ sleeps l1.
Proof.
  induction l1 as [|e l1 IH]; simpl.
  - now rewrite app_nil_r.
  - destruct e; auto. rewrite IH. now rewrite app_assoc.
Qed.

Lemma since_app w w' (new : list Event) :
  trace w' = new ++ trace w -> since w w' = new.
Proof.
  intros H. unfold since. rewrite H, length_app.
  replace (List.length new + List.length (trace w) - List.length (trace w))%nat
    with (List.length new + 0)%nat by lia.
  rewrite firstn_app_2. simpl. now rewrite app_nil_r.
Qed.

(** What one call leaves behind: the world [w'] extends [w] by [new]. *)
Record extends (w w' : World) (new : list Event) : Prop := {
  ext_trace : trace w' = new ++ trace w;
  ext_clock : clock w <= clock w'
}.

Lemma extends_refl w : extends w w [].
Proof. split; simpl; [reflexivity | lia]. Qed.

Lemma extends_trans w1 w2 w3 n1 n2 :
  extends w1 w2 n1 -> extends w2 w3 n2 -> extends w1 w3 (n2 ++ n1).
Proof.
  intros [T1 C1] [T2 C2]. split.
  - rewrite T2, T1. now rewrite app_assoc.
  - lia.
Qed.

Lemma extends_emit w e : extends w (emit e w) [e].
Proof. split; simpl; [reflexivity | lia]. Qed.

(** The same Core but for its nonce pool. *)
Definition same_identity a a' : Prop :=
  directory a' = directory a /\ jws a' = jws a /\ userAgent a' = userAgent a /\
  nonceURL (nonceManager a') = nonceURL (nonceManager a).

Lemma same_identity_refl a : same_identity a a.
Proof. repeat split. Qed.

Lemma same_identity_trans a1 a2 a3 :
  same_identity a1 a2 -> same_identity a2 a3 -> same_identity a1 a3.
Proof.
  unfold same_identity. intros (?&?&?&?) (?&?&?&?). repeat split; congruence.
Qed.

(** ** Signing and posting once *)

Lemma Manager_Nonce_extends (n : Manager) w r n1 w1 :
  Manager_Nonce n w = (r, n1, w1) ->
  nonceURL n1 = nonceURL n /\
  exists new, extends w w1 new /\ attempts new = [] /\ sleeps new = [].
Proof.
  unfold Manager_Nonce, Doer_Head. intros H.
  destruct (nonces n) as [|nonce rest].
  - destruct (doer_Head (nonceURL n) (env w)) as [[[resp err] lat] e'].
    assert (E : extends w {| clock := clock w + Z.of_N lat; env := e';
                             trace := EvHead (nonceURL n) :: trace w |}
                        [EvHead (nonceURL n)])
      by (split; simpl; [reflexivity | lia]).
    destruct err; inversion H; subst; (split; [reflexivity | eauto]).
  - inversion H; subst. split; [reflexivity|].
    exists []. auto using extends_refl.
Qed.

Lemma JWS_SignContent_extends (j : JWS) (n : Manager) uri content w r n1 w1 :
  JWS_SignContent j n uri content w = (r, n1, w1) ->
  nonceURL n1 = nonceURL n /\
  exists new, extends w w1 new /\ attempts new = [] /\ sleeps new = [].
Proof.
  unfold JWS_SignContent. intros H.
  destruct (Manager_Nonce n w) as [[r0 n0] w0] eqn:EN.
  apply Manager_Nonce_extends in EN. destruct EN as (U & new & X & A & S).
  destruct r0 as [e|nonce].
  - inversion H; subst. eauto.
  - destruct (jose_Sign (privKey j) (kid j) nonce uri content).
    + inversion H; subst. eauto.
    + inversion H; subst. split; [assumption|].
      exists ([EvSign uri nonce] ++ new). split; [|split].
      * eapply extends_trans; [eassumption | apply extends_emit].
      * simpl. assumption.
      * simpl. assumption.
Qed.

Lemma Doer_Post_extends uri body bodyType w r w1 :
  Doer_Post uri body bodyType w = (r, w1) -> extends w w1 [EvPost uri body].
Proof.
  unfold Doer_Post. intros H.
  destruct (doer_Post uri body bodyType (env w)) as [[[resp err] lat] e'].
  inversion H; subst. split; simpl; [reflexivity | lia].
Qed.

Lemma signedPost_extends a uri content w res a' w' :
  signedPost a uri content w = (res, a', w') ->
  same_identity a a' /\
  exists new, extends w w' new /\ attempts new = [] /\ sleeps new = [].
Proof.
  unfold signedPost. intros H.
  destruct (JWS_SignContent (jws a) (nonceManager a) uri content w) as [[sc n1] w1] eqn:ES.
  apply JWS_SignContent_extends in ES. destruct ES as (U & new & X & A & S).
  destruct sc as [err|signedBody].
  - inversion H; subst. split; [repeat split; simpl; auto | eauto].
  - destruct (Doer_Post uri signedBody "application/jose+json" w1) as [[resp err] w2] eqn:EP.
    apply Doer_Post_extends in EP.
    assert (X2 := extends_trans _ _ _ _ _ X EP).
    destruct (GetFromResponse resp); inversion H; subst;
      (split; [repeat split; simpl; auto
              | exists ([EvPost uri signedBody] ++ new); simpl; auto]).
Qed.

(** ** The back-off *)

Lemma Duration_of_float_bounds (x : Q) (lo hi : Z) :
  (inject_Z lo <= x)%Q -> (x < inject_Z hi + 1)%Q -> 0 <= lo ->
  lo <= Duration_of_float x <= hi.
Proof.
  intros Hlo Hhi Hpos.
  assert (H0 : (0 <= x)%Q).
  { apply Qle_trans with (inject_Z lo); [|assumption].
    unfold Qle; simpl. lia. }
  assert (HF : Duration_of_float x = Qfloor x).
  { unfold Duration_of_float, Qfloor. destruct x as [n d]. simpl.
    unfold Qle in H0. simpl in H0. apply Z.quot_div_nonneg; lia. }
  rewrite HF. split.
  - assert (L : (inject_Z lo < inject_Z (Qfloor x + 1))%Q)
      by (eapply Qle_lt_trans; [eassumption | apply Qlt_floor]).
    rewrite <- Zlt_Qlt in L. lia.
  - assert (L : (inject_Z (Qfloor x) < inject_Z (hi + 1))%Q).
    { eapply Qle_lt_trans; [apply Qfloor_le|].
      rewrite inject_Z_plus. assumption. }
    rewrite <- Zlt_Qlt in L. lia.
Qed.

(** With the randomization factor 0.5 the wait lies within 50% of the
    interval, whatever the random draw. *)
Lemma getRandomValueFromInterval_bounds (random : Q) (h : Z) :
  (0 <= random)%Q -> (random < 1)%Q -> 0 <= h ->
  h <= getRandomValueFromInterval (1 # 2) random (2 * h) <= 3 * h.
Proof.
  intros R0 R1 Hh. unfold getRandomValueFromInterval.
  assert (Hq : (0 <= inject_Z h)%Q) by (unfold Qle; simpl; lia).
  rewrite inject_Z_mult.
  set (H := inject_Z h) in *. change (inject_Z 2) with 2%Q.
  set (width := (2 * H + (1 # 2) * (2 * H) - (2 * H - (1 # 2) * (2 * H)) + 1)%Q).
  assert (W : (width == 2 * H + 1)%Q) by (unfold width; ring).
  assert (W0 : (0 < width)%Q) by (rewrite W; lra).
  assert (Y0 : (0 <= random * width)%Q) by (apply Qmult_le_0_compat; lra).
  assert (Y1 : (random * width < width)%Q).
  { setoid_replace width with (1 * width)%Q at 2 by ring.
    apply Qmult_lt_compat_r; assumption. }
  apply Duration_of_float_bounds; [| |assumption];
    rewrite ?inject_Z_mult; fold H; change (inject_Z 3) with 3%Q;
    set (y := (random * width)%Q) in *; clearbody y width H; lra.
Qed.

Lemma Rand_Float64_spec w random w1 :
  Rand_Float64 w = (random, w1) ->
  (0 <= random)%Q /\ (random < 1)%Q /\ clock w1 = clock w /\ trace w1 = trace w.
Proof.
  unfold Rand_Float64. destruct (rand_Float64 (env w)) as [[p q] e'].
  intros H; inversion H; subst; simpl.
  pose proof (Z.mod_pos_bound (Z.of_N p) (Zpos q) ltac:(lia)) as B.
  unfold Qle, Qlt; simpl. repeat split; lia.
Qed.

Lemma interval_from_8 (k : nat) : interval (8 + k) = 5 * Second.
Proof. unfold interval. simpl. destruct k; reflexivity. Qed.

(** Every retry interval is even and lies between 200ms and 5s. *)
Lemma interval_half (k : nat) :
  interval k = 2 * (interval k / 2) /\
  200 * Millisecond <= interval k <= 5 * Second.
Proof.
  do 8 (destruct k as [|k]; [vm_compute; intuition congruence|]).
  change (S (S (S (S (S (S (S (S k)))))))) with (8 + k)%nat.
  rewrite interval_from_8. vm_compute; intuition congruence.
Qed.

Lemma interval_step (k : nat) :
  (if Qle_bool (inject_Z (5 * Second) / (3 # 2)) (inject_Z (interval k))
   then 5 * Second
   else Duration_of_float (inject_Z (interval k) * (3 # 2))) = interval (S k).
Proof.
  do 8 (destruct k as [|k]; [reflexivity|]).
  change (S (S (S (S (S (S (S (S (S k))))))))) with (8 + S k)%nat.
  change (S (S (S (S (S (S (S (S k)))))))) with (8 + k)%nat.
  rewrite !interval_from_8. reflexivity.
Qed.

Lemma incrementCurrentInterval_at (k : nat) (t0 : Z) :
  incrementCurrentInterval (backoff_at k t0) = backoff_at (S k) t0.
Proof.
  unfold incrementCurrentInterval, backoff_at, set_currentInterval.
  cbn [currentInterval MaxInterval Multiplier InitialInterval RandomizationFactor
       MaxElapsedTime startTime].
  rewrite <- (interval_step k).
  destruct (Qle_bool (inject_Z (5 * Second) / (3 # 2)) (inject_Z (interval k)));
    reflexivity.
Qed.

Lemma Reset_retrievablePost_backoff w :
  Reset (retrievablePost_backoff w) w = backoff_at 0 (clock w).
Proof. reflexivity. Qed.

(** The three outcomes of asking the back-off for the next wait. *)
Lemma backOffContext_NextBackOff_at (k : nat) (t0 : Z) (f : Frame) w next b1 w1 :
  backOffContext_NextBackOff (backoff_at k t0) f w = (next, b1, w1) ->
  (ctx_done f = true /\ next = Stop /\ w1 = w) \/
  (ctx_done f = false /\ 20 * Second < clock w - t0 /\ next = Stop /\ w1 = w) \/
  (ctx_done f = false /\ clock w - t0 <= 20 * Second /\
   interval k / 2 <= next <= interval k + interval k / 2 /\
   b1 = backoff_at (S k) t0 /\ clock w1 = clock w /\ trace w1 = trace w).
Proof.
  unfold backOffContext_NextBackOff, NextBackOff, GetElapsedTime. intros H.
  destruct (ctx_done f).
  - left. inversion H; subst; tauto.
  - right.
    change (MaxElapsedTime (backoff_at k t0)) with (20 * Second) in H.
    change (startTime (backoff_at k t0)) with t0 in H.
    change (negb (20 * Second =? 0)) with true in H. rewrite andb_true_l in H.
    destruct (Z.ltb_spec (20 * Second) (clock w - t0)) as [L|L].
    + left. inversion H; subst; tauto.
    + right. destruct (Rand_Float64 w) as [random w2] eqn:ER.
      apply Rand_Float64_spec in ER. destruct ER as (R0 & R1 & C & T).
      inversion H; subst. rewrite incrementCurrentInterval_at.
      change (RandomizationFactor (backoff_at k t0)) with (1 # 2).
      change (currentInterval (backoff_at k t0)) with (interval k).
      destruct (interval_half k) as [E B].
      pose proof (getRandomValueFromInterval_bounds random (interval k / 2) R0 R1) as G.
      rewrite <- E in G.
      assert (0 <= interval k / 2) by (apply Z.div_pos; unfold Millisecond, Nanosecond in B; lia).
      repeat split; try tauto; lia.
Qed.

(** ** One call of the retried closure *)

Lemma operation_spec uri content (f : Frame) a w err f1 a1 w1 :
  operation uri content f a w = (err, f1, a1, w1) ->
  same_identity a a1 /\
  ctx_done f1 = (ctx_done f || match err with
                               | Some e => negb (isNonceError e)
                               | None => false
                               end) /\
  exists new, extends w w1 new /\ attempts new = [(err, clock w1)] /\ sleeps new = [].
Proof.
  unfold operation. intros H.
  destruct (signedPost a uri content w) as [[[resp0 err0] a0] w0] eqn:ES.
  apply signedPost_extends in ES. destruct ES as (I & new & X & A & S).
  assert (X1 : extends w (emit (EvAttempt err0 (clock w0)) w0)
                 ([EvAttempt err0 (clock w0)] ++ new))
    by (eapply extends_trans; [eassumption | apply extends_emit]).
  destruct err0 as [e|].
  - destruct e as [p|p|s]; inversion H; subst; clear H;
      (split; [assumption|]); (split; [simpl; now rewrite ?orb_true_r, ?orb_false_r|]).
    + exists ([EvLog ("nonce error retry: " ++ Error (NonceError p))%string]
              ++ [EvAttempt (Some (NonceError p)) (clock w0)] ++ new).
      split; [|split].
      * eapply extends_trans; [exact X1 | apply extends_emit].
      * simpl. rewrite A. reflexivity.
      * simpl. assumption.
    + eexists. split; [exact X1|]. simpl. rewrite A, S. auto.
    + eexists. split; [exact X1|]. simpl. rewrite A, S. auto.
  - inversion H; subst; clear H.
    split; [assumption|]. split; [simpl; now rewrite orb_false_r|].
    eexists. split; [exact X1|]. simpl. rewrite A, S. auto.
Qed.

Lemma extends_sleep w d : extends w (sleep d w) [EvSleep d].
Proof. split; simpl; [reflexivity | lia]. Qed.

Lemma waits_ok_nil (k : nat) : waits_ok k [].
Proof. intros i d H. destruct i; discriminate. Qed.

Lemma waits_ok_cons (k : nat) (d : Duration) (ds : list Duration) :
  interval k / 2 <= d <= interval k + interval k / 2 ->
  waits_ok (S k) ds -> waits_ok k (d :: ds).
Proof.
  intros B W i d' H. destruct i as [|i]; simpl in H.
  - inversion H; subst. now rewrite Nat.add_0_r.
  - replace (k + S i)%nat with (S k + i)%nat by lia. now apply W.
Qed.

(** ** The retry loop *)

Lemma RetryLoop_S (fuel : nat) (op : Operation) (b : ExponentialBackOff) (f : Frame) a w :
  RetryLoop (S fuel) op b f a w =
    let '(err, f1, a1, w1) := op f a w in
    match err with
    | None => (Some None, f1, a1, w1)
    | Some e =>
        let '(next, b1, w2) := backOffContext_NextBackOff b f1 w1 in
        if next =? Stop then (Some (Some e), f1, a1, w2)
        else if ctx_done f1 then (Some (Some e), f1, a1, w2)
        else RetryLoop fuel op b1 f1 a1 (sleep next w2)
    end.
Proof. reflexivity. Qed.

(** Whenever the loop returns, its attempts have the shape of [retry_run],
    its waits follow the intervals, and the Core is the same but for its
    nonce pool. *)
Lemma RetryLoop_run uri content (t0 : Z) (fuel : nat) :
  forall (k : nat) (f : Frame) a w r f' a' w',
    ctx_done f = false ->
    RetryLoop fuel (operation uri content) (backoff_at k t0) f a w = (Some r, f', a', w') ->
    same_identity a a' /\
    exists new,
      extends w w' new /\ retry_run t0 (attempts new) r /\ waits_ok k (sleeps new) /\
      (List.length (attempts new) <= fuel)%nat.
Proof.
  induction fuel as [|fuel IH]; intros k f a w r f' a' w' Hctx H; simpl in H.
  - discriminate.
  - destruct (operation uri content f a w) as [[[err f1] a1] w1] eqn:EO.
    apply operation_spec in EO. destruct EO as (I1 & D1 & new1 & X1 & A1 & S1).
    rewrite Hctx in D1. simpl in D1.
    destruct err as [e|].
    + destruct (backOffContext_NextBackOff (backoff_at k t0) f1 w1) as [[next b1] w2] eqn:EN.
      apply backOffContext_NextBackOff_at in EN.
      destruct EN as [(C & N & W) | [(C & L & N & W) | (C & L & B & EB & CK & TR)]].
      * (* the context was cancelled: not a nonce error *)
        subst next w2. rewrite Z.eqb_refl in H. inversion H; subst; clear H.
        split; [assumption|]. exists new1. rewrite A1, S1.
        split; [exact X1 | split; [|split; [apply waits_ok_nil | simpl; lia]]].
        apply run_abort. rewrite C in D1. destruct (isNonceError e); [discriminate | reflexivity].
      * (* the budget is used up *)
        subst next w2. rewrite Z.eqb_refl in H. inversion H; subst; clear H.
        split; [assumption|]. exists new1. rewrite A1, S1.
        split; [exact X1 | split; [|split; [apply waits_ok_nil | simpl; lia]]].
        apply run_exhausted; [|assumption].
        rewrite C in D1. destruct (isNonceError e); [reflexivity | discriminate].
      * (* wait and try again *)
        destruct (interval_half k) as [_ IB].
        assert (NS : (next =? Stop) = false).
        { apply Z.eqb_neq. unfold Stop.
          assert (0 < interval k / 2)
            by (apply Z.div_str_pos; unfold Millisecond, Nanosecond in IB; lia).
          lia. }
        rewrite NS, C in H. subst b1.
        apply IH in H; [|assumption].
        destruct H as (I2 & new2 & X2 & R2 & W2 & L2).
        split; [eapply same_identity_trans; eassumption|].
        assert (XS : extends w1 (sleep next w2) [EvSleep next]).
        { split; simpl; [now rewrite TR | lia]. }
        exists (new2 ++ [EvSleep next] ++ new1).
        split; [|split; [|split]].
        -- eapply extends_trans; [|eassumption].
           eapply extends_trans; eassumption.
        -- rewrite !attempts_app, A1. simpl.
           apply run_retry; [| |assumption].
           ++ rewrite C in D1. destruct (isNonceError e); [reflexivity | discriminate].
           ++ assumption.
        -- rewrite !sleeps_app, S1. simpl. now apply waits_ok_cons.
        -- rewrite !attempts_app, A1. simpl. lia.
    + inversion H; subst; clear H.
      split; [assumption|]. exists new1. rewrite A1, S1.
      split; [exact X1 | split; [|split; [apply waits_ok_nil | simpl; lia]]].
      apply run_success.
Qed.

(** Enough fuel: every wait lasts at least 100ms, so the budget of 20s is
    used up after at most 201 waits. *)
Lemma RetryLoop_returns uri content (t0 : Z) (n : nat) :
  forall (k : nat) (f : Frame) a w,
    20 * Second < Z.of_nat n * (100 * Millisecond) + (clock w - t0) ->
    exists r f' a' w',
      RetryLoop (S n) (operation uri content) (backoff_at k t0) f a w = (Some r, f', a', w').
Proof.
  induction n as [|n IH]; intros k f a w Hn; cbn [RetryLoop].
  - destruct (operation uri content f a w) as [[[err f1] a1] w1] eqn:EO.
    apply operation_spec in EO. destruct EO as (_ & _ & new1 & X1 & _ & _).
    destruct err as [e|]; [|eauto].
    destruct (backOffContext_NextBackOff (backoff_at k t0) f1 w1) as [[next b1] w2] eqn:EN.
    apply backOffContext_NextBackOff_at in EN.
    destruct EN as [(C & N & W) | [(C & L & N & W) | (C & L & B & EB & CK & TR)]].
    + subst. rewrite Z.eqb_refl. eauto.
    + subst. rewrite Z.eqb_refl. eauto.
    + exfalso. pose proof (ext_clock _ _ _ X1).
      unfold Second, Millisecond, Nanosecond in *. lia.
  - destruct (operation uri content f a w) as [[[err f1] a1] w1] eqn:EO.
    apply operation_spec in EO. destruct EO as (_ & _ & new1 & X1 & _ & _).
    destruct err as [e|]; [|eauto].
    destruct (backOffContext_NextBackOff (backoff_at k t0) f1 w1) as [[next b1] w2] eqn:EN.
    apply backOffContext_NextBackOff_at in EN.
    destruct EN as [(C & N & W) | [(C & L & N & W) | (C & L & B & EB & CK & TR)]].
    + subst. rewrite Z.eqb_refl. eauto.
    + subst. rewrite Z.eqb_refl. eauto.
    + destruct (next =? Stop); [eauto|]. rewrite C. subst b1.
      apply IH. pose proof (ext_clock _ _ _ X1).
      destruct (interval_half k) as [_ IB].
      assert (100 * Millisecond <= interval k / 2)
        by (apply Z.div_le_lower_bound; unfold Millisecond, Nanosecond in *; lia).
      cbn [sleep clock]. rewrite CK.
      unfold Millisecond, Nanosecond, Second in *. lia.
Qed.

(** ** Runs of the retry loop *)

Lemma retry_run_nonempty (t0 : Z) atts r :
  retry_run t0 atts r -> (1 <= List.length atts)%nat.
Proof. intros H; destruct H; simpl; lia. Qed.

(** Attempt [i] is followed by another one exactly when it failed with a
    nonce error within the budget; the loop returns the error of the last
    attempt. *)
Lemma retry_run_nth (t0 : Z) atts r :
  retry_run t0 atts r ->
  forall i err t, nth_error atts i = Some (err, t) ->
    ((S i < List.length atts)%nat <->
       exists e, err = Some e /\ isNonceError e = true /\ t - t0 <= 20 * Second) /\
    (S i = List.length atts -> r = err).
Proof.
  induction 1 as [t1 | e t1 N | e t1 N L | e t1 rest r N L R IH]; intros i err t Hn.
  - destruct i as [|i]; [|destruct i; discriminate].
    inversion Hn; subst. simpl. split; [|reflexivity].
    split; [lia | intros (e & E & _); discriminate].
  - destruct i as [|i]; [|destruct i; discriminate].
    inversion Hn; subst. simpl. split; [|reflexivity].
    split; [lia | intros (e' & E & N' & _); inversion E; subst; congruence].
  - destruct i as [|i]; [|destruct i; discriminate].
    inversion Hn; subst. simpl. split; [|reflexivity].
    split; [lia | intros (e' & E & _ & L'); time_lia].
  - pose proof (retry_run_nonempty _ _ _ R) as NE.
    destruct i as [|i]; simpl in Hn.
    + inversion Hn; subst. simpl. split; [|lia].
      split; [eauto | lia].
    + destruct (IH _ _ _ Hn) as [I1 I2]. simpl. split.
      * rewrite <- I1. lia.
      * intros E. apply I2. lia.
Qed.

Lemma nth_error_last_index {A : Type} (l : list A) (i : nat) (x : A) :
  nth_error l i = Some x -> ~ (S i < List.length l)%nat -> S i = List.length l.
Proof.
  intros H N. assert (i < List.length l)%nat by (apply nth_error_Some; congruence). lia.
Qed.

(** [retrievablePost] always returns, and its run has the shape of
    [retry_run]. *)
Lemma retrievablePost_run a uri content w :
  exists resp err a' w' new,
    retrievablePost a uri content w = (Some (resp, err), a', w') /\
    same_identity a a' /\ extends w w' new /\
    retry_run (clock w) (attempts new) err /\
    waits_ok 0 (sleeps new) /\
    (List.length (attempts new) <= retry_fuel)%nat /\
    (err <> None -> resp = None).
Proof.
  unfold retrievablePost, Retry. rewrite Reset_retrievablePost_backoff.
  destruct (RetryLoop_returns uri content (clock w) 201 0
              {| resp := None; ctx_done := false |} a w) as (r & f' & a' & w' & E).
  { unfold Second, Millisecond, Nanosecond. lia. }
  change (S 201) with retry_fuel in E. rewrite E.
  apply RetryLoop_run in E; [|reflexivity].
  destruct E as (I & new & X & R & W & L).
  destruct r as [e|].
  - exists None, (Some e), a', w', new. tauto.
  - exists (resp f'), None, a', w', new. intuition congruence.
Qed.

Lemma retry_run_all_nonce (t0 : Z) atts r :
  retry_run t0 atts r ->
  Forall (fun att => exists e, fst att = Some e /\ isNonceError e = true) atts ->
  exists e t,
    r = Some e /\ isNonceError e = true /\
    last atts (None, 0) = (Some e, t) /\ 20 * Second < t - t0.
Proof.
  induction 1 as [t1 | e t1 N | e t1 N L | e t1 rest r N L R IH]; intros F.
  - inversion F as [|? ? (e & E & _) _]; subst. discriminate.
  - inversion F as [|? ? (e' & E & N') _]; subst. simpl in E. congruence.
  - exists e, t1. auto.
  - inversion F as [|? ? _ F']; subst.
    destruct (IH F') as (e' & t' & E1 & E2 & E3 & E4).
    exists e', t'. repeat split; try assumption.
    pose proof (retry_run_nonempty _ _ _ R).
    destruct rest; [simpl in *; lia | exact E3].
Qed.

(** A signing failure is reported as a plain error, never as a nonce
    error, and nothing is posted. *)
Lemma signedPost_sign_failure a uri content w e n1 w1 :
  JWS_SignContent (jws a) (nonceManager a) uri content w = (inl e, n1, w1) ->
  signedPost a uri content w =
    ((None, Some (fmt_Errorf "failed to post JWS message -> failed to sign content -> " (Error e))),
     set_nonceManager a n1, w1).
Proof. unfold signedPost. intros H. rewrite H. reflexivity. Qed.

(** The first attempt of a run is the call of [signedPost] in the world the
    run started in. *)
Lemma retrievablePost_first_attempt a uri content w r a' w' :
  retrievablePost a uri content w = (r, a', w') ->
  nth_error (attempts (since w w')) 0 =
    Some (snd (fst (fst (signedPost a uri content w))),
          clock (snd (signedPost a uri content w))).
Proof.
  intros H.
  destruct (retrievablePost_run a uri content w) as (resp & err & a1 & w1 & new & E & _).
  rewrite H in E. inversion E; subst; clear E.
  revert H. unfold retrievablePost, Retry. rewrite Reset_retrievablePost_backoff.
  change retry_fuel with (S 201). rewrite RetryLoop_S.
  destruct (operation uri content {| resp := None; ctx_done := false |} a w)
    as [[[err0 f0] a0] w0] eqn:EO.
  assert (EO' := EO). apply operation_spec in EO'.
  destruct EO' as (_ & D & new0 & X0 & A0 & _).
  assert (Q : snd (fst (fst (signedPost a uri content w))) = err0 /\
              clock (snd (signedPost a uri content w)) = clock w0).
  { unfold operation in EO.
    destruct (signedPost a uri content w) as [[[resp1 err1] a2] w2]. simpl.
    destruct err1 as [e1|]; [destruct e1|]; inversion EO; subst; auto. }
  destruct Q as [Q1 Q2]. rewrite Q1, Q2. clear Q1 Q2.
  assert (G : forall new', extends w0 w1 new' ->
              nth_error (attempts (since w w1)) 0 = Some (err0, clock w0)).
  { intros new' X'. pose proof (extends_trans _ _ _ _ _ X0 X') as X.
    rewrite (since_app _ _ _ (ext_trace _ _ _ X)).
    rewrite attempts_app, A0. reflexivity. }
  destruct err0 as [e|].
  - destruct (backOffContext_NextBackOff (backoff_at 0 (clock w)) f0 w0)
      as [[next b1] w2] eqn:EN.
    apply backOffContext_NextBackOff_at in EN.
    destruct EN as [(C & N & W) | [(C & L & N & W) | (C & L & B & EB & CK & TR)]].
    + subst. rewrite Z.eqb_refl. intros H. inversion H; subst.
      apply (G []), extends_refl.
    + subst. rewrite Z.eqb_refl. intros H. inversion H; subst.
      apply (G []), extends_refl.
    + destruct (next =? Stop).
      * intros H. inversion H; subst. apply (G []). split; [now rewrite TR | lia].
      * rewrite C. subst b1.
        destruct (RetryLoop 201 (operation uri content) (backoff_at 1 (clock w)) f0 a0
                    (sleep next w2)) as [[[r2 f2] a2] w3] eqn:ER.
        intros H. destruct r2 as [r2|]; [|discriminate].
        assert (w3 = w1) by (destruct r2; inversion H; reflexivity). subst w3.
        apply RetryLoop_run in ER; [|assumption].
        destruct ER as (_ & new2 & X2 & _).
        apply (G (new2 ++ [EvSleep next])).
        eapply extends_trans; [|eassumption].
        split; simpl; [now rewrite TR | lia].
  - intros H. inversion H; subst. apply (G []), extends_refl.
Qed.

(** ** The retrying executor: what is retried, and for how long *)

(** C1 (as amended).  In every run of [retrievablePost] an attempt is
    followed by another one if and only if it failed with a
    [*acme.NonceError] and, when it failed, no more than the budget of 20s
    had passed since the run began.  An attempt that fails with any other
    error is the last one, and its error is returned with no response.  A
    signing failure in particular is reported as a plain error: when the
    first signature fails the run consists of that one attempt. *)
Theorem retrievablePost_retries_bad_nonce_within_budget a uri content w r a' w' :
  retrievablePost a uri content w = (r, a', w') ->
  (forall i e t, nth_error (attempts (since w w')) i = Some (Some e, t) ->
     ((S i < List.length (attempts (since w w')))%nat <->
      isNonceError e = true /\ t - clock w <= 20 * Second)) /\
  (forall i e t, nth_error (attempts (since w w')) i = Some (Some e, t) ->
     isNonceError e = false ->
     S i = List.length (attempts (since w w')) /\ r = Some (None, Some e)) /\
  (forall e n1 w1,
     JWS_SignContent (jws a) (nonceManager a) uri content w = (inl e, n1, w1) ->
     List.length (attempts (since w w')) = 1%nat /\
     r = Some (None, Some (fmt_Errorf
            "failed to post JWS message -> failed to sign content -> " (Error e)))).
Proof.
  intros H.
  pose proof (retrievablePost_first_attempt _ _ _ _ _ _ _ H) as First.
  destruct (retrievablePost_run a uri content w)
    as (resp & err & a1 & w1 & new & E & _ & X & R & _ & _ & NR).
  rewrite H in E. inversion E; subst; clear E.
  rewrite (since_app _ _ _ (ext_trace _ _ _ X)) in *.
  assert (P2 : forall i e t, nth_error (attempts new) i = Some (Some e, t) ->
               isNonceError e = false ->
               S i = List.length (attempts new) /\
               Some (resp, err) = Some (None, Some e)).
  { intros i e t Hn N.
    destruct (retry_run_nth _ _ _ R _ _ _ Hn) as [I1 I2].
    assert (L : S i = List.length (attempts new)).
    { apply (nth_error_last_index _ _ _ Hn). intros Lt. apply I1 in Lt.
      destruct Lt as (e' & Ee & N' & _). inversion Ee; subst. congruence. }
    split; [exact L|]. rewrite (I2 L) in *. rewrite NR by discriminate. reflexivity. }
  split; [|split].
  - intros i e t Hn. destruct (retry_run_nth _ _ _ R _ _ _ Hn) as [I1 _].
    rewrite I1. split.
    + intros (e' & Ee & N & L). inversion Ee; subst. auto.
    + intros (N & L). eauto.
  - exact P2.
  - intros e n1 w2 HS. rewrite (signedPost_sign_failure _ _ _ _ _ _ _ HS) in First.
    cbn [fst snd] in First. destruct (P2 _ _ _ First eq_refl) as [L Q].
    split; [symmetry; exact L | exact Q].
Qed.

(** C2 (as amended).  When every attempt of a run fails with a bad-nonce
    error, [retrievablePost] returns no response and the error of its last
    attempt, which is that [*acme.NonceError] itself; the last attempt failed
    after the budget of 20s had passed.  No other error is made up. *)
Theorem retrievablePost_exhausted_returns_last_nonce_error a uri content w r a' w' :
  retrievablePost a uri content w = (r, a', w') ->
  Forall (fun att => exists e, fst att = Some e /\ isNonceError e = true)
         (attempts (since w w')) ->
  exists e t,
    r = Some (None, Some e) /\ isNonceError e = true /\
    last (attempts (since w w')) (None, 0) = (Some e, t) /\
    20 * Second < t - clock w.
Proof.
  intros H F.
  destruct (retrievablePost_run a uri content w)
    as (resp & err & a1 & w1 & new & E & _ & X & R & _ & _ & NR).
  rewrite H in E. inversion E; subst; clear E.
  rewrite (since_app _ _ _ (ext_trace _ _ _ X)) in *.
  destruct (retry_run_all_nonce _ _ _ R F) as (e & t & E1 & E2 & E3 & E4).
  exists e, t. subst err. rewrite NR by discriminate. auto.
Qed.


(** ** One signed POST *)

(** C3.  Whenever [signedPost] has signed its request and posted it, and the
    response carries a nonce, that nonce is pushed on the nonce pool,
    whatever error the transport reports along with the response; the
    response and the error are handed on as they are. *)
Theorem signedPost_pushes_nonce a uri content w signedBody n1 w1 r err w2 :
  JWS_SignContent (jws a) (nonceManager a) uri content w = (inr signedBody, n1, w1) ->
  Doer_Post uri signedBody "application/jose+json" w1 = ((Some r, err), w2) ->
  ReplayNonce r <> ""%string ->
  exists a',
    signedPost a uri content w = ((Some r, err), a', w2) /\
    nonces (nonceManager a') = ReplayNonce r :: nonces n1.
Proof.
  intros HS HP HN. unfold signedPost. rewrite HS, HP.
  unfold GetFromResponse. apply String.eqb_neq in HN. rewrite HN.
  eexists. split; reflexivity.
Qed.

(** C10.  Once the request is signed, the response and the error that
    [signedPost] returns are those of the transport's [Post]; when no nonce
    can be extracted from the response, the extraction error is dropped and
    the nonce pool is left as the signer left it. *)
Theorem signedPost_keeps_root_error a uri content w signedBody n1 w1 :
  JWS_SignContent (jws a) (nonceManager a) uri content w = (inr signedBody, n1, w1) ->
  fst (fst (signedPost a uri content w)) =
    fst (Doer_Post uri signedBody "application/jose+json" w1) /\
  (forall nonceErr,
     GetFromResponse (fst (fst (Doer_Post uri signedBody "application/jose+json" w1)))
       = inl nonceErr ->
     signedPost a uri content w =
       (fst (Doer_Post uri signedBody "application/jose+json" w1),
        set_nonceManager a n1,
        snd (Doer_Post uri signedBody "application/jose+json" w1))).
Proof.
  intros HS. unfold signedPost. rewrite HS.
  destruct (Doer_Post uri signedBody "application/jose+json" w1) as [[resp err] w2].
  cbn [fst snd]. split.
  - destruct (GetFromResponse resp); reflexivity.
  - intros nonceErr HG. rewrite HG. reflexivity.
Qed.

(** ** post *)

(** C9.  When the request body cannot be marshaled, [post] returns the error
    "failed to marshal message" with no response and leaves the Core and the
    world as they were: nothing is signed, no nonce is taken, nothing is
    sent.  Otherwise [post] is [retrievablePost] on the marshaled body; so
    whenever [post] leaves anything in the trace, the body was marshaled. *)
Theorem post_marshal_failure a uri (reqBody : Any) w :
  (forall e, json_Marshal reqBody = inl e ->
     post a uri reqBody w =
       (Some (None, Some (errors_New "failed to marshal message")), a, w)) /\
  (forall content, json_Marshal reqBody = inr content ->
     post a uri reqBody w = retrievablePost a uri content w) /\
  (forall r a' w', post a uri reqBody w = (r, a', w') ->
     trace w' <> trace w \/ a' <> a ->
     exists content, json_Marshal reqBody = inr content).
Proof.
  unfold post. destruct (json_Marshal reqBody) as [e|content].
  - split; [reflexivity|]. split; [discriminate|].
    intros r a' w' H [N|N]; inversion H; subst; congruence.
  - split; [discriminate|]. split; [intros c E; inversion E; reflexivity|].
    eauto.
Qed.

(** ** Key authorizations *)

(** C6.  [GetKeyAuthorization] returns the same string and the same error
    for the same token on any two Cores that hold the same account key, in
    whatever worlds they are run; it returns the Core and the world as it
    found them: no nonce is taken, nothing is sent, no time passes. *)
Theorem GetKeyAuthorization_deterministic a1 a2 (token : string) (w1 w2 : World) :
  privKey (jws a1) = privKey (jws a2) ->
  fst (fst (GetKeyAuthorization a1 token w1)) = fst (fst (GetKeyAuthorization a2 token w2)) /\
  snd (fst (GetKeyAuthorization a1 token w1)) = a1 /\
  snd (GetKeyAuthorization a1 token w1) = w1.
Proof.
  intros K. unfold GetKeyAuthorization, JWS_GetKeyAuthorization. cbn [fst snd].
  rewrite K. auto.
Qed.

(** ** The directory *)

Lemma run_call_same_identity (c : Call) a w :
  same_identity a (fst (run_call c a w)).
Proof.
  destruct c as [uri reqBody|uri|uri content|uri content|url kid hmac|token]; simpl.
  - unfold post. destruct (json_Marshal reqBody) as [e|content].
    + apply same_identity_refl.
    + destruct (retrievablePost_run a uri content w) as (? & ? & ? & ? & ? & E & I & _).
      rewrite E. exact I.
  - unfold postAsGet.
    destruct (retrievablePost_run a uri [] w) as (? & ? & ? & ? & ? & E & I & _).
    rewrite E. exact I.
  - destruct (retrievablePost_run a uri content w) as (? & ? & ? & ? & ? & E & I & _).
    rewrite E. exact I.
  - destruct (signedPost a uri content w) as [[res a'] w'] eqn:E.
    apply signedPost_extends in E. apply E.
  - unfold signEABContent. destruct (JWS_SignEABContent (jws a) url kid hmac);
      apply same_identity_refl.
  - apply same_identity_refl.
Qed.

Lemma run_calls_same_identity (cs : list Call) :
  forall a w, same_identity a (fst (run_calls cs a w)).
Proof.
  induction cs as [|c cs IH]; intros a w; simpl.
  - apply same_identity_refl.
  - pose proof (run_call_same_identity c a w) as I.
    destruct (run_call c a w) as [a' w']. simpl in I.
    eapply same_identity_trans; [exact I | apply IH].
Qed.

(** C5.  Given that the CA's directory was fetched: when it lacks the
    new-account URL or the new-order URL, [New] returns an error and no Core;
    when it has both, [New] returns a Core and no error, the Core's
    directory is the fetched one, and it still is after any sequence of
    calls of the Core's methods. *)
Theorem New_checks_and_keeps_directory (ua caDirURL keyID : string) (key : PrivateKey)
  w (dir : Directory) (lat : N) (e' : Env) :
  doer_Get caDirURL (env w) = ((dir, None, lat), e') ->
  (NewAccountURL dir = ""%string \/ NewOrderURL dir = ""%string ->
     exists err w', New ua caDirURL keyID key w = ((None, Some err), w')) /\
  (NewAccountURL dir <> ""%string -> NewOrderURL dir <> ""%string ->
     exists c w',
       New ua caDirURL keyID key w = ((Some c, None), w') /\
       GetDirectory c = dir /\
       forall (cs : list Call) (w0 : World),
         GetDirectory (fst (run_calls cs c w0)) = dir).
Proof.
  intros HG. unfold New, getDirectory, Doer_Get. rewrite HG. split.
  - intros [E|E].
    + rewrite E. simpl. eauto.
    + rewrite E. destruct (NewAccountURL dir =? "")%string; simpl; eauto.
  - intros NA NO. apply String.eqb_neq in NA, NO. rewrite NA, NO.
    eexists. eexists. split; [reflexivity|]. split; [reflexivity|].
    intros cs w0. unfold GetDirectory.
    destruct (run_calls_same_identity cs
      {| nonceManager := NewManager (NewNonceURL dir);
         jws := {| privKey := key; kid := keyID |};
         directory := dir; userAgent := ua |} w0) as (D & _).
    exact D.
Qed.

End EngineFacts.

(** * Properties of the provider registry and of the DNS set-up *)

Section ProviderFacts.

Context {Provider PEnv : Type} `{Ctors : Constructors Provider PEnv}.

Local Open Scope list_scope.

Lemma distinct_NoDup (l : list string) : distinct l = true -> NoDup l.
Proof.
  induction l as [|x l IH]; simpl; intros H.
  - constructor.
  - apply andb_prop in H. destruct H as [H1 H2]. constructor; [|auto].
    intros I. apply negb_true_iff in H1.
    assert (E : existsb (String.eqb x) l = true)
      by (apply existsb_exists; exists x; split; [assumption | apply String.eqb_refl]).
    congruence.
Qed.

Lemma switch_miss {A : Type} (tag : string) (cases : list (string * A)) (default : A) :
  ~ In tag (map fst cases) -> switch tag cases default = default.
Proof.
  induction cases as [|[c body] cases IH]; simpl; intros N.
  - reflexivity.
  - destruct (String.eqb_spec tag c) as [E|E].
    + exfalso. apply N. left. congruence.
    + apply IH. intros I. apply N. right. exact I.
Qed.

Lemma switch_hit {A : Type} (tag : string) (cases : list (string * A)) (default body : A) :
  NoDup (map fst cases) -> In (tag, body) cases -> switch tag cases default = body.
Proof.
  induction cases as [|[c b] cases IH]; simpl; intros ND I.
  - contradiction.
  - inversion ND as [|? ? NI ND']; subst.
    destruct I as [E|I].
    + inversion E; subst. now rewrite String.eqb_refl.
    + destruct (String.eqb_spec tag c) as [E|E].
      * exfalso. apply NI. subst c. change tag with (fst (tag, body)). now apply in_map.
      * now apply IH.
Qed.

Lemma providerCases_distinct : NoDup (map fst providerCases).
Proof. apply distinct_NoDup. vm_compute. reflexivity. Qed.

(** C7.  [NewDNSChallengeProviderByName] is defined on every name.  For a
    name among the 59 cases of the switch, no two of which share a name, it
    is the constructor of that case: calling it is calling that constructor
    and nothing else; "manual" is [dns01.NewDNSProviderManual].  For any
    other name it returns no provider and the error "unrecognized DNS
    provider: " followed by the name, and calls no constructor. *)
Theorem NewDNSChallengeProviderByName_registry (name : string) :
  (forall ctor, In (name, ctor) providerCases ->
     NewDNSChallengeProviderByName name = ctor) /\
  (~ In name (map fst providerCases) ->
     forall penv,
       NewDNSChallengeProviderByName name penv =
         ((None, Some (errorString ("unrecognized DNS provider: " ++ name)%string)), penv)) /\
  (In name (map fst providerCases) \/ ~ In name (map fst providerCases)) /\
  NewDNSChallengeProviderByName "manual" = NewDNSProviderManual /\
  NewDNSChallengeProviderByName "acme-dns" = NewDNSProvider pkg_acmedns /\
  List.length providerCases = 59%nat.
Proof.
  unfold NewDNSChallengeProviderByName.
  split; [|split; [|split; [|split; [|split]]]].
  - intros ctor I. apply switch_hit; [apply providerCases_distinct | exact I].
  - intros N penv. rewrite switch_miss by exact N. reflexivity.
  - destruct (in_dec string_dec name (map fst providerCases)); [left | right]; assumption.
  - reflexivity.
  - reflexivity.
  - reflexivity.
Qed.

Variable ParseNameservers : list string -> list string.

Lemma wrap64_small (z : Z) : - 2 ^ 63 <= z < 2 ^ 63 -> wrap64 z = z.
Proof.
  intros B. unfold wrap64. rewrite Z.mod_small by lia. lia.
Qed.

(** Within 9223372036 seconds the duration is the number of seconds. *)
Lemma Duration_of_seconds (n : Z) :
  - 9223372036 <= n <= 9223372036 ->
  Duration_mul (Duration_of_int n) Second = n * Second.
Proof.
  intros B. unfold Duration_mul, Duration_of_int.
  rewrite (wrap64_small n) by lia.
  apply wrap64_small. unfold Second, Millisecond, Nanosecond. lia.
Qed.

(** C8 (as amended).  [setupDNS] hands [SetDNS01Provider] the option that
    adds the recursive nameservers if and only if the resolvers list is not
    empty, the option that disables the complete-propagation requirement if
    and only if [dns.disable-cp] is true, and the option that sets the DNS
    timeout if and only if [dns-timeout] is set; when [setupDNS] returns,
    each setting is the selected one or else what it was.  The timeout is
    [time.Duration(n) * time.Second] in 64-bit nanoseconds, which is [n]
    seconds as long as [n] is at most 9223372036 in absolute value. *)
Theorem setupDNS_options_as_selected (ctx : cli_Context) :
  (forall ns, In (AddRecursiveNameservers ns) (setupDNS_options ParseNameservers ctx) <->
     GlobalStringSlice ctx "dns.resolvers" <> [] /\
     ns = ParseNameservers (GlobalStringSlice ctx "dns.resolvers")) /\
  (In DisableCompletePropagationRequirement (setupDNS_options ParseNameservers ctx) <->
     GlobalBool ctx "dns.disable-cp" = true) /\
  (forall d, In (AddDNSTimeout d) (setupDNS_options ParseNameservers ctx) <->
     GlobalIsSet ctx "dns-timeout" = true /\
     d = Duration_mul (Duration_of_int (GlobalInt ctx "dns-timeout")) Second) /\
  (- 9223372036 <= GlobalInt ctx "dns-timeout" <= 9223372036 ->
     Duration_mul (Duration_of_int (GlobalInt ctx "dns-timeout")) Second =
       GlobalInt ctx "dns-timeout" * Second) /\
  (forall client penv client' penv',
     setupDNS ParseNameservers ctx client penv = (Return client', penv') ->
     recursiveNameservers (dns01Challenge client') =
       (match GlobalStringSlice ctx "dns.resolvers" with
        | [] => recursiveNameservers (dns01Challenge client)
        | _ :: _ => ParseNameservers (GlobalStringSlice ctx "dns.resolvers")
        end) /\
     requireCompletePropagation (dns01Challenge client') =
       (if GlobalBool ctx "dns.disable-cp" then false
        else requireCompletePropagation (dns01Challenge client)) /\
     dnsTimeout (dns01Challenge client') =
       (if GlobalIsSet ctx "dns-timeout"
        then Duration_mul (Duration_of_int (GlobalInt ctx "dns-timeout")) Second
        else dnsTimeout (dns01Challenge client))).
Proof.
  unfold setupDNS, setupDNS_options.
  split; [|split; [|split; [|split]]].
  - intros ns. destruct (GlobalStringSlice ctx "dns.resolvers") as [|s ss] eqn:ES;
      destruct (GlobalBool ctx "dns.disable-cp"), (GlobalIsSet ctx "dns-timeout");
      simpl; split;
      try (intros [E|[E|[E|[]]]]; try discriminate; inversion E; split; congruence);
      try (intros [N E]; congruence);
      try (intros [N E]; left; congruence).
  - destruct (GlobalStringSlice ctx "dns.resolvers") as [|s ss];
      destruct (GlobalBool ctx "dns.disable-cp"), (GlobalIsSet ctx "dns-timeout");
      simpl; split; try (intros [E|[E|[E|[]]]]; discriminate); try discriminate; auto.
  - intros d. destruct (GlobalStringSlice ctx "dns.resolvers") as [|s ss];
      destruct (GlobalBool ctx "dns.disable-cp"), (GlobalIsSet ctx "dns-timeout");
      simpl; split;
      try (intros [E|[E|[E|[]]]]; try discriminate; inversion E; split; congruence);
      try (intros [N E]; congruence);
      try (intros [N E]; right; right; left; congruence).
  - apply Duration_of_seconds.
  - intros client penv client' penv'.
    destruct (NewDNSChallengeProviderByName (GlobalString ctx "dns") penv)
      as [[provider err] penv1].
    destruct err as [e|]; [discriminate|].
    unfold SetDNS01Provider. intros H. inversion H; subst; clear H. cbn [dns01Challenge].
    destruct (GlobalStringSlice ctx "dns.resolvers") as [|s ss];
      destruct (GlobalBool ctx "dns.disable-cp"), (GlobalIsSet ctx "dns-timeout");
      simpl; auto.
Qed.

End ProviderFacts.

(** * The theorems at work on the scripted CA *)

Section Runs.

Import Mock.

Local Open Scope list_scope.

(** Against C1 as stated: a CA that needs 21s to answer bad-nonce is asked
    once; the attempt failed with the bad-nonce error and was not retried. *)
Lemma retried_iff_bad_nonce_fails_when_budget_is_spent :
  ~ retried_iff_bad_nonce
      (attempts (since (world (alwaysBadNonce 21000000000)) (snd run_slow_bad_nonce))).
Proof.
  assert (E : attempts (since (world (alwaysBadNonce 21000000000)) (snd run_slow_bad_nonce))
              = [(Some badNonce, 21000000000)])
    by (vm_compute; reflexivity).
  rewrite E. intros H.
  destruct (H 0%nat badNonce 21000000000 eq_refl) as [_ H2].
  specialize (H2 eq_refl). simpl in H2. lia.
Qed.

Lemma retrievablePost_retries_bad_nonce_within_budget_witness :
  ((1 < List.length (attempts (since (world refusing) (snd run_bad_nonce_then_refused))))%nat
   <-> isNonceError badNonce = true /\ 5 - clock (world refusing) <= 20 * Second) /\
  fst (fst run_bad_nonce_then_refused) =
    Some (None, Some (errorString "dial tcp: connection refused")).
Proof.
  assert (Run : retrievablePost acct orderURL [] (world refusing)
                = (fst (fst run_bad_nonce_then_refused),
                   snd (fst run_bad_nonce_then_refused),
                   snd run_bad_nonce_then_refused))
    by (vm_compute; reflexivity).
  destruct (retrievablePost_retries_bad_nonce_within_budget
              acct orderURL [] (world refusing)
              (fst (fst run_bad_nonce_then_refused))
              (snd (fst run_bad_nonce_then_refused))
              (snd run_bad_nonce_then_refused) Run) as [P1 [P2 _]].
  split.
  - apply (P1 0%nat badNonce 5). vm_compute. reflexivity.
  - apply (P2 1%nat (errorString "dial tcp: connection refused") 100000012).
    + vm_compute. reflexivity.
    + reflexivity.
Defined.

(** Against C2 as stated: a CA that always answers bad-nonce; after 16
    attempts and more than 20s the caller gets the bad-nonce error itself. *)
Lemma exhausted_budget_surfaces_bad_nonce :
  Forall (fun att => fst att = Some badNonce)
         (attempts (since (world (alwaysBadNonce 0)) (snd run_always_bad_nonce))) /\
  20 * Second < clock (snd run_always_bad_nonce) - clock (world (alwaysBadNonce 0)) /\
  fst (fst run_always_bad_nonce) = Some (None, Some badNonce) /\
  ~ surfaces_timeout (fst (fst run_always_bad_nonce)).
Proof.
  assert (E : fst (fst run_always_bad_nonce) = Some (None, Some badNonce))
    by (vm_compute; reflexivity).
  split; [|split; [|split]].
  - vm_compute. repeat constructor.
  - vm_compute. reflexivity.
  - exact E.
  - rewrite E. intros (resp & e & Q & N). inversion Q; subst. discriminate.
Qed.

Lemma retrievablePost_exhausted_returns_last_nonce_error_witness :
  exists e t,
    fst (fst run_always_bad_nonce) = Some (None, Some e) /\ isNonceError e = true /\
    last (attempts (since (world (alwaysBadNonce 0)) (snd run_always_bad_nonce))) (None, 0)
      = (Some e, t) /\
    20 * Second < t - clock (world (alwaysBadNonce 0)).
Proof.
  apply (retrievablePost_exhausted_returns_last_nonce_error
           acct orderURL [] (world (alwaysBadNonce 0))
           (fst (fst run_always_bad_nonce))
           (snd (fst run_always_bad_nonce))
           (snd run_always_bad_nonce)).
  - vm_compute. reflexivity.
  - vm_compute. repeat constructor; eexists; split; reflexivity.
Defined.

Lemma signedPost_pushes_nonce_witness :
  exists a',
    fst (signedPost acct orderURL [] (world limiting))
      = ((Some (response 429 "n-fresh"), Some rateLimited), a') /\
    nonces (nonceManager a') = ["n-fresh"].
Proof.
  assert (Signed : JWS_SignContent (jws acct) (nonceManager acct) orderURL [] (world limiting)
                   = (inr "jws:kid-1:n0:https://ca.test/order",
                      {| nonceURL := NewNonceURL dir; nonces := [] |},
                      emit (EvSign orderURL "n0") (world limiting)))
    by (vm_compute; reflexivity).
  assert (Posted : Doer_Post orderURL "jws:kid-1:n0:https://ca.test/order"
                     "application/jose+json" (emit (EvSign orderURL "n0") (world limiting))
                   = ((Some (response 429 "n-fresh"), Some rateLimited),
                      snd (Doer_Post orderURL "jws:kid-1:n0:https://ca.test/order"
                             "application/jose+json"
                             (emit (EvSign orderURL "n0") (world limiting)))))
    by (vm_compute; reflexivity).
  destruct (signedPost_pushes_nonce acct orderURL [] (world limiting) _ _ _ _ _ _
              Signed Posted ltac:(discriminate)) as (a' & E & P).
  exists a'. rewrite E. split; [reflexivity | exact P].
Defined.

Lemma signedPost_keeps_root_error_witness :
  fst (fst (signedPost acct orderURL [] (world (scripted [(None, Some (errorString "EOF"), 1%N)]))))
    = (None, Some (errorString "EOF")).
Proof.
  assert (Signed : JWS_SignContent (jws acct) (nonceManager acct) orderURL []
                     (world (scripted [(None, Some (errorString "EOF"), 1%N)]))
                   = (inr "jws:kid-1:n0:https://ca.test/order",
                      {| nonceURL := NewNonceURL dir; nonces := [] |},
                      emit (EvSign orderURL "n0")
                        (world (scripted [(None, Some (errorString "EOF"), 1%N)]))))
    by (vm_compute; reflexivity).
  apply (proj1 (signedPost_keeps_root_error acct orderURL []
                  (world (scripted [(None, Some (errorString "EOF"), 1%N)]))
                  "jws:kid-1:n0:https://ca.test/order"
                  {| nonceURL := NewNonceURL dir; nonces := [] |}
                  (emit (EvSign orderURL "n0")
                     (world (scripted [(None, Some (errorString "EOF"), 1%N)])))
                  Signed)).
Defined.

Lemma post_marshal_failure_witness :
  post acct orderURL GoChan (world limiting)
    = (Some (None, Some (errors_New "failed to marshal message")), acct, world limiting).
Proof.
  apply (proj1 (post_marshal_failure acct orderURL GoChan (world limiting))
           (errorString "json: unsupported type: chan int")).
  reflexivity.
Defined.

Lemma GetKeyAuthorization_deterministic_witness :
  fst (fst (GetKeyAuthorization (core (RSAKey "k") ["n0"]) "token" (world limiting)))
    = fst (fst (GetKeyAuthorization (core (RSAKey "k") []) "token" (world refusing))).
Proof.
  apply (GetKeyAuthorization_deterministic
           (core (RSAKey "k") ["n0"]) (core (RSAKey "k") []) "token"
           (world limiting) (world refusing)).
  reflexivity.
Defined.

Lemma New_checks_and_keeps_directory_witness :
  (exists err w',
     New "lego-test" "https://ca.test/dir" "kid-1" (RSAKey "k") (world (serving dir_without_order))
       = ((None, Some err), w')) /\
  (exists c w',
     New "lego-test" "https://ca.test/dir" "kid-1" (RSAKey "k") (world (serving dir))
       = ((Some c, None), w') /\
     GetDirectory c = dir /\
     forall (cs : list (Call (Any := GoValue))) (w0 : World CA),
       GetDirectory (fst (run_calls cs c w0)) = dir).
Proof.
  assert (Fetched : forall d, doer_Get "https://ca.test/dir" (env (world (serving d)))
                                = ((d, None, 2%N), serving d))
    by reflexivity.
  split.
  - apply (proj1 (New_checks_and_keeps_directory
                    "lego-test" "https://ca.test/dir" "kid-1" (RSAKey "k")
                    (world (serving dir_without_order)) dir_without_order 2%N
                    (serving dir_without_order) (Fetched dir_without_order))).
    right. reflexivity.
  - apply (proj2 (New_checks_and_keeps_directory
                    "lego-test" "https://ca.test/dir" "kid-1" (RSAKey "k")
                    (world (serving dir)) dir 2%N (serving dir) (Fetched dir)));
      discriminate.
Defined.

Lemma NewDNSChallengeProviderByName_registry_witness :
  NewDNSChallengeProviderByName "cloudflare" = NewDNSProvider pkg_cloudflare /\
  NewDNSChallengeProviderByName "bind" []
    = ((None, Some (errorString "unrecognized DNS provider: bind")), []).
Proof.
  split.
  - apply (proj1 (NewDNSChallengeProviderByName_registry "cloudflare")).
    do 6 right. left. reflexivity.
  - apply (proj1 (proj2 (NewDNSChallengeProviderByName_registry "bind"))).
    vm_compute. intuition discriminate.
Defined.

(** Against C8 as stated: with [--dns-timeout 10000000000] the timeout that
    [setupDNS] puts in force is not ten billion seconds; the multiplication
    by [time.Second] wraps around and leaves a negative duration. *)
Lemma huge_timeout_is_not_configured_seconds :
  exists client',
    setupDNS parse ctx_huge_timeout client0 [] = (Return client', [Manual]) /\
    dnsTimeout (dns01Challenge client') = -8446744073709551616 /\
    ~ timeout_is_configured_seconds ctx_huge_timeout client'.
Proof.
  eexists. split; [vm_compute; reflexivity|]. split; [reflexivity|].
  unfold timeout_is_configured_seconds. vm_compute. discriminate.
Qed.

Lemma setupDNS_options_as_selected_witness :
  exists client',
    setupDNS parse ctx_all client0 [] = (Return client', [Vendor pkg_cloudflare]) /\
    recursiveNameservers (dns01Challenge client') = ["8.8.8.8:53"] /\
    requireCompletePropagation (dns01Challenge client') = false /\
    dnsTimeout (dns01Challenge client') = 30 * Second.
Proof.
  assert (Ret : setupDNS parse ctx_all client0 []
                = (Return {| dns01Provider := Some (Vendor pkg_cloudflare);
                             dns01Challenge :=
                               {| requireCompletePropagation := false;
                                  recursiveNameservers := ["8.8.8.8:53"];
                                  dnsTimeout := 30 * Second |} |},
                   [Vendor pkg_cloudflare]))
    by (vm_compute; reflexivity).
  eexists. split; [exact Ret|].
  destruct (setupDNS_options_as_selected parse ctx_all) as (_ & _ & _ & S & C).
  destruct (C client0 [] _ _ Ret) as (C1 & C2 & C3).
  split; [exact C1|]. split; [exact C2|].
  rewrite C3. apply S. vm_compute. intuition discriminate.
Defined.

End Runs.

(** * Further properties of the engine *)

Section EngineMore.

Context {Env Any : Type} `{Ext : External Env Any}.

Local Abbreviation World := (World Env).
Local Open Scope list_scope.

Implicit Types (a : Core) (w : World) (uri : string) (content : bytes).

Ltac units := unfold max_waiting, Minute, Second, Millisecond, Nanosecond in *.

(** ** Requests in a trace *)

Lemma posts_app (l1 l2 : list Event) : posts (l1 ++ l2) = posts l1 ++ posts l2.
Proof. apply filter_app. Qed.

Lemma heads_app (l1 l2 : list Event) : heads (l1 ++ l2) = heads l1 ++ heads l2.
Proof. apply filter_app. Qed.

Lemma total_app (l1 l2 : list Duration) : total (l1 ++ l2) = total l1 + total l2.
Proof.
  induction l1 as [|d l1 IH]; simpl; [reflexivity|]. rewrite IH. lia.
Qed.

Lemma same_new w w' (n1 n2 : list Event) :
  trace w' = n1 ++ trace w -> trace w' = n2 ++ trace w -> n1 = n2.
Proof. intros H1 H2. rewrite H1 in H2. now apply app_inv_tail in H2. Qed.

(** Signing posts nothing; it fetches a nonce at most once, and not at all
    when the pool has one. *)
Lemma JWS_SignContent_io (j : JWS) (n : Manager) uri content w r n1 w1 :
  JWS_SignContent j n uri content w = (r, n1, w1) ->
  exists new,
    trace w1 = new ++ trace w /\ posts new = [] /\
    (List.length (heads new) <= 1)%nat /\ (nonces n <> [] -> heads new = []).
Proof.
  unfold JWS_SignContent, Manager_Nonce, Doer_Head. intros H.
  destruct (nonces n) as [|nonce rest].
  - destruct (doer_Head (nonceURL n) (env w)) as [[[resp err] lat] e'].
    destruct err as [e|].
    + injection H as <- <- <-. exists [EvHead (nonceURL n)]. simpl. intuition.
    + destruct (GetFromResponse resp) as [e|nonce].
      * injection H as <- <- <-. exists [EvHead (nonceURL n)]. simpl. intuition.
      * destruct (jose_Sign (privKey j) (kid j) nonce uri content);
          injection H as <- <- <-.
        -- exists [EvHead (nonceURL n)]. simpl. intuition.
        -- exists [EvSign uri nonce; EvHead (nonceURL n)]. simpl. intuition.
  - destruct (jose_Sign (privKey j) (kid j) nonce uri content); injection H as <- <- <-.
    + exists []. simpl. intuition.
    + exists [EvSign uri nonce]. simpl. intuition.
Qed.

Lemma signedPost_io a uri content w res a' w' :
  signedPost a uri content w = (res, a', w') ->
  exists new,
    trace w' = new ++ trace w /\
    (List.length (heads new) <= 1)%nat /\
    (nonces (nonceManager a) <> [] -> heads new = []) /\
    match fst (fst (JWS_SignContent (jws a) (nonceManager a) uri content w)) with
    | inl _ => posts new = []
    | inr signedBody => posts new = [EvPost uri signedBody]
    end.
Proof.
  unfold signedPost. intros H.
  destruct (JWS_SignContent (jws a) (nonceManager a) uri content w) as [[sc n1] w1] eqn:ES.
  apply JWS_SignContent_io in ES. destruct ES as (new & T & P & H1 & H0).
  cbn [fst]. destruct sc as [err|signedBody].
  - inversion H; subst. exists new. auto.
  - unfold Doer_Post in H.
    destruct (doer_Post uri signedBody "application/jose+json" (env w1))
      as [[[resp err] lat] e'].
    exists (EvPost uri signedBody :: new).
    change (heads (EvPost uri signedBody :: new)) with (heads new).
    change (posts (EvPost uri signedBody :: new)) with (EvPost uri signedBody :: posts new).
    rewrite P.
    destruct (GetFromResponse resp); injection H as <- <- <-; simpl trace; rewrite T; auto.
Qed.

(** After an attempt that the CA rejected with bad-nonce, the pool holds
    the nonce of that response. *)
Lemma signedPost_refills_pool a uri content w resp0 e a' w' :
  nonce_on_every_response ->
  signedPost a uri content w = ((resp0, Some e), a', w') ->
  isNonceError e = true ->
  nonces (nonceManager a') <> [].
Proof.
  intros HN. unfold signedPost.
  destruct (JWS_SignContent (jws a) (nonceManager a) uri content w) as [[sc n1] w1].
  destruct sc as [err|signedBody].
  - intros H N. injection H as _ <- _ _. discriminate.
  - unfold Doer_Post.
    destruct (HN uri signedBody "application/jose+json"%string (env w1)) as (r & E & NE).
    destruct (doer_Post uri signedBody "application/jose+json" (env w1))
      as [[[resp err] lat] e'].
    simpl in E. subst resp. unfold GetFromResponse.
    apply String.eqb_neq in NE. rewrite NE.
    intros H _. injection H as _ _ <- _. simpl. discriminate.
Qed.

(** The requests of one call of the retried closure. *)
Lemma operation_requests uri content (f : Frame) a w err f1 a1 w1 :
  operation uri content f a w = (err, f1, a1, w1) ->
  (exists new,
     trace w1 = new ++ trace w /\
     (List.length (posts new) <= 1)%nat /\
     (List.length (heads new) <= 1)%nat /\
     (nonces (nonceManager a) <> [] -> heads new = [])) /\
  (nonce_on_every_response ->
   forall e, err = Some e -> isNonceError e = true -> nonces (nonceManager a1) <> []).
Proof.
  unfold operation. intros H.
  destruct (signedPost a uri content w) as [[[resp0 err0] a0] w0] eqn:ES.
  assert (ES' := ES). apply signedPost_io in ES'.
  destruct ES' as (new & T & H1 & H0 & P).
  assert (PL : (List.length (posts new) <= 1)%nat).
  { destruct (fst (fst (JWS_SignContent (jws a) (nonceManager a) uri content w)));
      rewrite P; simpl; lia. }
  split.
  - destruct err0 as [e|]; [destruct e|]; injection H as <- <- <- <-.
    + exists (EvLog ("nonce error retry: " ++ Error (NonceError p))%string
              :: EvAttempt (Some (NonceError p)) (clock w0) :: new).
      simpl. rewrite T. auto.
    + exists (EvAttempt (Some (ProblemError p)) (clock w0) :: new). simpl. rewrite T. auto.
    + exists (EvAttempt (Some (errorString s)) (clock w0) :: new). simpl. rewrite T. auto.
    + exists (EvAttempt None (clock w0) :: new). simpl. rewrite T. auto.
  - intros HN e E N.
    destruct err0 as [e0|]; [|injection H as <- _ _ _; discriminate].
    assert (e0 = e /\ a0 = a1) as [-> ->]
      by (destruct e0; injection H as <- _ <- _; inversion E; auto).
    eapply signedPost_refills_pool; eassumption.
Qed.

(** ** How long and how often the loop can go on *)

Lemma least_elapsed_step (k : nat) : least_elapsed k <= least_elapsed (S k).
Proof.
  simpl. destruct (interval_half k) as [_ B].
  assert (0 <= interval k / 2) by (apply Z.div_pos; units; lia). lia.
Qed.

Lemma least_elapsed_mono (k k' : nat) :
  (k <= k')%nat -> least_elapsed k <= least_elapsed k'.
Proof.
  induction 1 as [|k' _ IH]; [lia|]. pose proof (least_elapsed_step k'). lia.
Qed.

(** Fifteen waits take more than the budget. *)
Lemma least_elapsed_15 : 20 * Second < least_elapsed 15.
Proof. vm_compute. reflexivity. Qed.

Lemma RetryLoop_bounds uri content (t0 : Z) (fuel : nat) :
  forall (k : nat) (f : Frame) a w r f' a' w',
    ctx_done f = false -> (k <= 15)%nat -> least_elapsed k <= clock w - t0 ->
    RetryLoop fuel (operation uri content) (backoff_at k t0) f a w = (Some r, f', a', w') ->
    exists new,
      trace w' = new ++ trace w /\
      (List.length (attempts new) + k <= max_attempts)%nat /\
      List.length (attempts new) = S (List.length (sleeps new)) /\
      (List.length (posts new) <= List.length (attempts new))%nat /\
      0 <= total (sleeps new) /\
      (clock w - t0 <= max_waiting -> total (sleeps new) <= max_waiting - (clock w - t0)).
Proof.
  induction fuel as [|fuel IH]; intros k f a w r f' a' w' Hctx Hk Hel H.
  - cbn [RetryLoop] in H. discriminate.
  - rewrite RetryLoop_S in H.
    destruct (operation uri content f a w) as [[[err f1] a1] w1] eqn:EO.
    assert (EO' := EO). apply operation_requests in EO'.
    destruct EO' as ((new1' & T1 & P1 & _) & _).
    apply operation_spec in EO. destruct EO as (_ & D1 & new1 & X1 & A1 & S1).
    assert (new1' = new1) by (eapply same_new; [exact T1 | apply X1]). subst new1'.
    pose proof (ext_clock _ _ _ X1) as CK1.
    rewrite Hctx in D1. simpl in D1.
    assert (Done : forall w2, trace w2 = trace w1 ->
              exists new,
                trace w2 = new ++ trace w /\
                (List.length (attempts new) + k <= max_attempts)%nat /\
                List.length (attempts new) = S (List.length (sleeps new)) /\
                (List.length (posts new) <= List.length (attempts new))%nat /\
                0 <= total (sleeps new) /\
                (clock w - t0 <= max_waiting ->
                 total (sleeps new) <= max_waiting - (clock w - t0))).
    { intros w2 T2. exists new1. rewrite T2, A1, S1.
      cbn [List.length total fold_right]. unfold max_attempts.
      split; [apply X1|]. split; [lia|]. split; [reflexivity|]. split; [lia|].
      split; [lia|]. intros Hw. lia. }
    destruct err as [e|]; [|injection H as _ _ _ <-; now apply Done].
    destruct (backOffContext_NextBackOff (backoff_at k t0) f1 w1) as [[next b1] w2] eqn:EN.
    apply backOffContext_NextBackOff_at in EN.
    destruct EN as [(C & N & W) | [(C & L & N & W) | (C & L & B & EB & CK & TR)]].
    + subst next w2. rewrite Z.eqb_refl in H. injection H as _ _ _ <-. now apply Done.
    + subst next w2. rewrite Z.eqb_refl in H. injection H as _ _ _ <-. now apply Done.
    + destruct (next =? Stop); [injection H as _ _ _ <-; now apply Done|].
      rewrite C in H. subst b1.
      destruct (interval_half k) as [_ IB].
      assert (H0 : 0 <= interval k / 2) by (apply Z.div_pos; units; lia).
      assert (H5 : interval k / 2 <= 2500 * Millisecond)
        by (apply Z.div_le_upper_bound; units; lia).
      assert (Hk' : (S k <= 15)%nat).
      { destruct (Nat.eq_dec k 15) as [->|]; [|lia].
        pose proof least_elapsed_15. lia. }
      apply IH in H; [|assumption|exact Hk'|cbn [sleep clock least_elapsed]; lia].
      destruct H as (new2 & T2 & N2 & W2 & P2 & Z2 & S2).
      exists (new2 ++ EvSleep next :: new1).
      cbn [sleep trace] in T2. rewrite TR, (ext_trace _ _ _ X1) in T2.
      rewrite !attempts_app, !sleeps_app, !posts_app, !length_app, total_app.
      change (attempts (EvSleep next :: new1)) with (attempts new1).
      change (sleeps (EvSleep next :: new1)) with (sleeps new1 ++ [next]).
      change (posts (EvSleep next :: new1)) with (posts new1).
      rewrite A1, S1. cbn [List.length app total fold_right].
      split; [rewrite T2, <- app_assoc; reflexivity|].
      split; [lia|]. split; [lia|]. split; [lia|]. split; [lia|].
      intros Hw. cbn [sleep clock] in S2.
      assert (total (sleeps new2) <= max_waiting - (clock w2 + Z.max 0 next - t0))
        by (apply S2; units; lia).
      lia.
Qed.

(** With a CA that puts a nonce on every response, only the first attempt
    can need a fresh-nonce fetch. *)
Lemma RetryLoop_heads uri content (fuel : nat) :
  nonce_on_every_response ->
  forall (k : nat) (t0 : Z) (f : Frame) a w r f' a' w',
    ctx_done f = false ->
    RetryLoop fuel (operation uri content) (backoff_at k t0) f a w = (Some r, f', a', w') ->
    exists new,
      trace w' = new ++ trace w /\
      (List.length (heads new) <= 1)%nat /\
      (nonces (nonceManager a) <> [] -> heads new = []).
Proof.
  intros HN. induction fuel as [|fuel IH]; intros k t0 f a w r f' a' w' Hctx H.
  - cbn [RetryLoop] in H. discriminate.
  - rewrite RetryLoop_S in H.
    destruct (operation uri content f a w) as [[[err f1] a1] w1] eqn:EO.
    assert (EO' := EO). apply operation_requests in EO'.
    destruct EO' as ((new1 & T1 & _ & H1 & H0) & Refill).
    apply operation_spec in EO. destruct EO as (_ & D1 & _).
    rewrite Hctx in D1. simpl in D1.
    assert (Done : forall w2, trace w2 = trace w1 ->
              exists new, trace w2 = new ++ trace w /\
                (List.length (heads new) <= 1)%nat /\
                (nonces (nonceManager a) <> [] -> heads new = []))
      by (intros w2 T2; exists new1; rewrite T2; auto).
    destruct err as [e|]; [|injection H as _ _ _ <-; now apply Done].
    destruct (backOffContext_NextBackOff (backoff_at k t0) f1 w1) as [[next b1] w2] eqn:EN.
    apply backOffContext_NextBackOff_at in EN.
    destruct EN as [(C & N & W) | [(C & L & N & W) | (C & L & B & EB & CK & TR)]].
    + subst next w2. rewrite Z.eqb_refl in H. injection H as _ _ _ <-. now apply Done.
    + subst next w2. rewrite Z.eqb_refl in H. injection H as _ _ _ <-. now apply Done.
    + destruct (next =? Stop); [injection H as _ _ _ <-; now apply Done|].
      rewrite C in H. subst b1.
      assert (NE : isNonceError e = true)
        by (rewrite C in D1; destruct (isNonceError e); [reflexivity | discriminate]).
      apply IH in H; [|assumption].
      destruct H as (new2 & T2 & _ & Z2).
      exists (new2 ++ EvSleep next :: new1).
      cbn [sleep trace] in T2. rewrite TR, T1 in T2.
      rewrite heads_app.
      change (heads (EvSleep next :: new1)) with (heads new1).
      rewrite (Z2 (Refill HN e eq_refl NE)). cbn [app].
      split; [rewrite T2, <- app_assoc; reflexivity | auto].
Qed.

(** ** Whole calls *)

Lemma retrievablePost_loop a uri content w r a' w' :
  retrievablePost a uri content w = (r, a', w') ->
  exists r0 f',
    RetryLoop retry_fuel (operation uri content) (backoff_at 0 (clock w))
      {| resp := None; ctx_done := false |} a w = (Some r0, f', a', w').
Proof.
  unfold retrievablePost, Retry. rewrite Reset_retrievablePost_backoff.
  destruct (RetryLoop_returns uri content (clock w) 201 0
              {| resp := None; ctx_done := false |} a w) as (r0 & f' & a1 & w1 & E).
  { unfold Second, Millisecond, Nanosecond. lia. }
  change (S 201) with retry_fuel in E. rewrite E. intros H.
  exists r0, f'. destruct r0; injection H as _ <- <-; reflexivity.
Qed.

Lemma retry_run_last (t0 : Z) atts r :
  retry_run t0 atts r ->
  (exists t, last atts (None, 0) = (r, t)) /\
  Forall (fun att => exists e, fst att = Some e /\ isNonceError e = true) (removelast atts).
Proof.
  induction 1 as [t1 | e t1 N | e t1 N L | e t1 rest r N L R IH].
  - split; [exists t1; reflexivity | constructor].
  - split; [exists t1; reflexivity | constructor].
  - split; [exists t1; reflexivity | constructor].
  - pose proof (retry_run_nonempty _ _ _ R) as NE. destruct IH as [(t & E) F].
    destruct rest as [|x rest]; [simpl in NE; lia|]. split.
    + exists t. exact E.
    + change (removelast ((Some e, t1) :: x :: rest))
        with ((Some e, t1) :: removelast (x :: rest)).
      constructor; [exists e; auto | exact F].
Qed.

(** X1.  [New] asks the CA once, for the directory, whatever comes of it.
    When the request fails, [New] returns no Core and the error "get
    directory at '<url>': <cause>".  When the directory lacks the new-account
    URL the error is "directory missing new registration URL", also when
    the new-order URL is missing as well; a directory that lacks the new-order
    URL alone gives "directory missing new order URL". *)
Theorem New_reports_directory_errors (ua caDirURL keyID : string) (key : PrivateKey)
  w (dir : Directory) (gerr : option error) (lat : N) (e' : Env) :
  doer_Get caDirURL (env w) = ((dir, gerr, lat), e') ->
  snd (New ua caDirURL keyID key w) =
    {| clock := clock w + Z.of_N lat; env := e'; trace := EvGet caDirURL :: trace w |} /\
  (forall e, gerr = Some e ->
     fst (New ua caDirURL keyID key w) =
       (None, Some (errorString ("get directory at '" ++ caDirURL ++ "': " ++ Error e)%string))) /\
  (gerr = None -> NewAccountURL dir = ""%string ->
     fst (New ua caDirURL keyID key w) =
       (None, Some (errors_New "directory missing new registration URL"))) /\
  (gerr = None -> NewAccountURL dir <> ""%string -> NewOrderURL dir = ""%string ->
     fst (New ua caDirURL keyID key w) =
       (None, Some (errors_New "directory missing new order URL"))).
Proof.
  intros HG. unfold New, getDirectory, Doer_Get. rewrite HG.
  destruct gerr as [e|].
  - cbn [fst snd]. split; [reflexivity|]. split; [|split]; try discriminate.
    intros e0 E. injection E as <-. reflexivity.
  - destruct (String.eqb_spec (NewAccountURL dir) "") as [A|A];
      destruct (String.eqb_spec (NewOrderURL dir) "") as [O|O]; cbn [fst snd];
      (split; [reflexivity|]); (split; [discriminate|]); split; intros; congruence.
Qed.

(** X2.  What [retrievablePost] returns is the outcome of its last attempt:
    the error is the one of the last attempt (none when it succeeded), all
    earlier attempts failed with bad-nonce errors, and a response is never
    returned together with an error, although [signedPost] may have
    received one. *)
Theorem retrievablePost_returns_last_attempt a uri content w r a' w' :
  retrievablePost a uri content w = (r, a', w') ->
  exists resp err t,
    r = Some (resp, err) /\
    last (attempts (since w w')) (None, 0) = (err, t) /\
    (err <> None -> resp = None) /\
    Forall (fun att => exists e, fst att = Some e /\ isNonceError e = true)
           (removelast (attempts (since w w'))).
Proof.
  intros H.
  destruct (retrievablePost_run a uri content w)
    as (resp & err & a1 & w1 & new & E & _ & X & R & _ & _ & NR).
  rewrite H in E. injection E as -> -> ->.
  rewrite (since_app _ _ _ (ext_trace _ _ _ X)).
  destruct (retry_run_last _ _ _ R) as [(t & L) F].
  exists resp, err, t. auto.
Qed.

(** X3.  Whatever method of the Core is called, it makes at most 16
    attempts and posts at most 16 requests: the budget of 20s is used up by
    the waits before a seventeenth attempt, however fast the CA answers and
    however short the random waits are.  (The bound is reached.) *)
Theorem Core_call_posts_at_most_16 (c : Call) a w :
  (List.length (attempts (since w (snd (run_call c a w)))) <= max_attempts)%nat /\
  (List.length (posts (since w (snd (run_call c a w)))) <= max_attempts)%nat.
Proof.
  assert (RP : forall uri content r a' w',
            retrievablePost a uri content w = (r, a', w') ->
            (List.length (attempts (since w w')) <= max_attempts)%nat /\
            (List.length (posts (since w w')) <= max_attempts)%nat).
  { intros uri content r a' w' H.
    apply retrievablePost_loop in H. destruct H as (r0 & f' & H).
    apply RetryLoop_bounds in H; [|reflexivity|lia|simpl; lia].
    destruct H as (new & T & N & _ & P & _).
    rewrite (since_app _ _ _ T). lia. }
  assert (Z0 : since w w = []) by (apply since_app; reflexivity).
  destruct c as [uri reqBody|uri|uri content|uri content|url kid hmac|token];
    cbn [run_call].
  - unfold post. destruct (json_Marshal reqBody) as [e|content].
    + cbn [snd]. rewrite Z0. simpl. unfold max_attempts. lia.
    + destruct (retrievablePost a uri content w) as [[r a'] w'] eqn:E.
      cbn [snd]. eapply RP; eassumption.
  - unfold postAsGet. destruct (retrievablePost a uri [] w) as [[r a'] w'] eqn:E.
    cbn [snd]. eapply RP; eassumption.
  - destruct (retrievablePost a uri content w) as [[r a'] w'] eqn:E.
    cbn [snd]. eapply RP; eassumption.
  - destruct (signedPost a uri content w) as [[res a'] w'] eqn:E. cbn [snd].
    assert (E' := E). apply signedPost_io in E'. destruct E' as (new & T & _ & _ & P).
    apply signedPost_extends in E. destruct E as (_ & new' & X & A & _).
    assert (new' = new) by (eapply same_new; [apply X | exact T]). subst new'.
    rewrite (since_app _ _ _ T), A. unfold max_attempts.
    destruct (fst (fst (JWS_SignContent (jws a) (nonceManager a) uri content w)));
      rewrite P; simpl; lia.
  - unfold signEABContent. destruct (JWS_SignEABContent (jws a) url kid hmac);
      cbn [snd]; rewrite Z0; simpl; unfold max_attempts; lia.
  - cbn [GetKeyAuthorization snd]. rewrite Z0. simpl. unfold max_attempts. lia.
Qed.

(** X4.  In a call of [retrievablePost] every attempt but the first comes
    after exactly one wait, so a call that succeeds or is refused at once
    never waits; and all the waits of a call together take at most 27.5s. *)
Theorem retrievablePost_waiting a uri content w r a' w' :
  retrievablePost a uri content w = (r, a', w') ->
  List.length (attempts (since w w')) = S (List.length (sleeps (since w w'))) /\
  0 <= total (sleeps (since w w')) <= max_waiting.
Proof.
  intros H. apply retrievablePost_loop in H. destruct H as (r0 & f' & H).
  apply RetryLoop_bounds in H; [|reflexivity|lia|simpl; lia].
  destruct H as (new & T & _ & W & _ & Z0 & S).
  rewrite (since_app _ _ _ T). split; [exact W|]. split; [exact Z0|].
  assert (clock w - clock w <= max_waiting) by (units; lia).
  specialize (S H). lia.
Qed.

(** X5.  [signedPost] posts exactly one request, the signed body to the
    given URI, when the signature succeeds, and none when it fails; then
    the world is the one signing left. *)
Theorem signedPost_posts_once a uri content w res a' w' :
  signedPost a uri content w = (res, a', w') ->
  (forall e n1 w1,
     JWS_SignContent (jws a) (nonceManager a) uri content w = (inl e, n1, w1) ->
     posts (since w w') = [] /\ w' = w1 /\ fst res = None) /\
  (forall signedBody n1 w1,
     JWS_SignContent (jws a) (nonceManager a) uri content w = (inr signedBody, n1, w1) ->
     posts (since w w') = [EvPost uri signedBody]).
Proof.
  intros H. assert (H' := H). apply signedPost_io in H'.
  destruct H' as (new & T & _ & _ & P). rewrite (since_app _ _ _ T). split.
  - intros e n1 w1 HS. rewrite HS in P. cbn [fst] in P.
    rewrite (signedPost_sign_failure _ _ _ _ _ _ _ HS) in H.
    injection H as <- _ <-. auto.
  - intros sb n1 w1 HS. rewrite HS in P. exact P.
Qed.

(** X6.  When the CA puts a nonce on the response to every POST, a call of
    [retrievablePost] fetches a fresh nonce at most once, before its first
    attempt, and not at all when the pool holds a nonce: every retry signs
    with the nonce that came with the rejection. *)
Theorem retrievablePost_fetches_nonce_at_most_once a uri content w r a' w' :
  nonce_on_every_response ->
  retrievablePost a uri content w = (r, a', w') ->
  (List.length (heads (since w w')) <= 1)%nat /\
  (nonces (nonceManager a) <> [] -> heads (since w w') = []).
Proof.
  intros HN H. apply retrievablePost_loop in H. destruct H as (r0 & f' & H).
  apply RetryLoop_heads in H; [|exact HN|reflexivity].
  destruct H as (new & T & H1 & H0).
  rewrite (since_app _ _ _ T). auto.
Qed.

End EngineMore.

(** * Further properties of the registry and of the set-up *)

Section ChallengeFacts.

Context {Provider PEnv : Type} `{Ctors : Constructors Provider PEnv}
        `{Solv : Solvers Provider PEnv}.

Variable ParseNameservers : list string -> list string.

Local Open Scope list_scope.

(** ** The registry, both ways *)

Lemma Package_name_found (p : Package) :
  find (fun np => match snd np with
                  | Some q => Package_beq q p
                  | None => false
                  end) providerPackages = Some (Package_name p, Some p).
Proof. destruct p; reflexivity. Qed.

Lemma providerCases_packages :
  providerCases =
    map (fun np => (fst np, match snd np with
                            | Some p => NewDNSProvider p
                            | None => NewDNSProviderManual
                            end)) providerPackages.
Proof. reflexivity. Qed.

Lemma providerPackages_names : map fst providerPackages = map fst providerCases.
Proof. reflexivity. Qed.

Lemma In_unique_value {A : Type} (l : list (string * A)) (n : string) (x y : A) :
  NoDup (map fst l) -> In (n, x) l -> In (n, y) l -> x = y.
Proof.
  induction l as [|[m v] l IH]; simpl; intros ND Hx Hy; [contradiction|].
  inversion ND as [|? ? NI ND']; subst.
  destruct Hx as [Ex|Hx], Hy as [Ey|Hy].
  - congruence.
  - exfalso. inversion Ex; subst. apply NI.
    change n with (fst (n, y)). now apply in_map.
  - exfalso. inversion Ey; subst. apply NI.
    change n with (fst (n, x)). now apply in_map.
  - now apply IH.
Qed.

(** X7.  The registry is one-to-one: every provider package that the file
    imports is registered under exactly one name, [NewDNSChallengeProviderByName]
    on that name calls the constructor of that package, two packages never
    share a name, and none is registered as "manual". *)
Theorem registry_is_one_to_one :
  (forall p, NewDNSChallengeProviderByName (Package_name p) = NewDNSProvider p) /\
  (forall name p, In (name, Some p) providerPackages <-> name = Package_name p) /\
  (forall p q, Package_name p = Package_name q -> p = q) /\
  (forall name, In (name, None) providerPackages <-> name = "manual"%string).
Proof.
  assert (ND : NoDup (map fst providerPackages))
    by (rewrite providerPackages_names; apply providerCases_distinct).
  assert (Found : forall p, In (Package_name p, Some p) providerPackages).
  { intros p. pose proof (Package_name_found p) as F. apply find_some in F. apply F. }
  assert (Manual : In ("manual"%string, @None Package) providerPackages)
    by (vm_compute; tauto).
  split; [|split; [|split]].
  - intros p. destruct p; reflexivity.
  - intros name p. split.
    + intros I. unfold providerPackages in I. cbn [In] in I.
      repeat (destruct I as [I|I]; [inversion I; subst; reflexivity|]); contradiction.
    + intros ->. apply Found.
  - intros p q E. pose proof (Found p) as Ip. pose proof (Found q) as Iq.
    rewrite E in Ip. pose proof (In_unique_value _ _ _ _ ND Ip Iq). congruence.
  - intros name. split.
    + intros I. unfold providerPackages in I. cbn [In] in I.
      repeat (destruct I as [I|I]; [inversion I; subst; reflexivity|]); contradiction.
    + intros ->. exact Manual.
Qed.

(** ** Setting up DNS *)

(** X8.  [setupDNS] ends the process with "unrecognized DNS provider: "
    and the name when [--dns] names no case of the registry, without calling
    any constructor, and with the constructor's own error when the named
    constructor fails.  When the constructor succeeds, [setupDNS] returns
    with its provider installed, and the process environment is as that one
    constructor left it. *)
Theorem setupDNS_outcomes (ctx : cli_Context) (client : Client) (penv : PEnv) :
  (~ In (GlobalString ctx "dns") (map fst providerCases) ->
     setupDNS ParseNameservers ctx client penv =
       (Fatal (errorString ("unrecognized DNS provider: " ++ GlobalString ctx "dns")%string),
        penv)) /\
  (forall ctor p e penv1,
     In (GlobalString ctx "dns", ctor) providerCases -> ctor penv = ((p, Some e), penv1) ->
     setupDNS ParseNameservers ctx client penv = (Fatal e, penv1)) /\
  (forall ctor p penv1,
     In (GlobalString ctx "dns", ctor) providerCases -> ctor penv = ((p, None), penv1) ->
     exists client',
       setupDNS ParseNameservers ctx client penv = (Return client', penv1) /\
       dns01Provider client' = p).
Proof.
  unfold setupDNS, NewDNSChallengeProviderByName. split; [|split].
  - intros N. rewrite switch_miss by exact N. reflexivity.
  - intros ctor p e penv1 I E.
    rewrite (switch_hit _ _ _ ctor providerCases_distinct I), E. reflexivity.
  - intros ctor p penv1 I E.
    rewrite (switch_hit _ _ _ ctor providerCases_distinct I), E.
    eexists. split; reflexivity.
Qed.

(** ** Setting up the challenges *)

Lemma cmd_bind_Return {A B : Type} (m : Cmd PEnv A) (k : A -> Cmd PEnv B)
  (penv penv' : PEnv) (y : B) :
  cmd_bind m k penv = (Return y, penv') ->
  exists x penv1, m penv = (Return x, penv1) /\ k x penv1 = (Return y, penv').
Proof.
  unfold cmd_bind. destruct (m penv) as [[e|x] penv1]; [discriminate | eauto].
Qed.

Lemma orFatal_pure {A : Type} (r : A * option error) (penv : PEnv) :
  orFatal (fun penv0 => (r, penv0)) penv =
    match snd r with
    | Some e => (Fatal e, penv)
    | None => (Return (fst r), penv)
    end.
Proof. unfold orFatal. destruct r as [x [e|]]; reflexivity. Qed.

(** X9.  With [--http] given, [setupHTTPProvider] ends the process only
    for one of these reasons: the webroot constructor failed; no webroot is
    given and the memcached constructor failed; neither is given and the
    value of [--http.port] has no colon or is refused by [net.SplitHostPort].
    With [--tls] given, [setupTLSProvider] ends the process only because the
    value of [--tls.port] has no colon or is refused by [net.SplitHostPort],
    and it calls no constructor.  Neither reaches "Invalid HTTP challenge
    options." then. *)
Theorem selected_challenge_fails_only_on_its_options
  (ctx : cli_Context) (penv penv' : PEnv) (e : error) :
  (GlobalBool ctx "http" = true ->
   setupHTTPProvider ctx penv = (Fatal e, penv') ->
   (GlobalIsSet ctx "http.webroot" = true /\
    exists p, webroot_NewHTTPProvider (GlobalString ctx "http.webroot") penv
                = ((p, Some e), penv')) \/
   (GlobalIsSet ctx "http.webroot" = false /\
    GlobalIsSet ctx "http.memcached-host" = true /\
    exists p, memcached_NewMemcachedProvider (GlobalStringSlice ctx "http.memcached-host") penv
                = ((p, Some e), penv')) \/
   (GlobalIsSet ctx "http.webroot" = false /\
    GlobalIsSet ctx "http.memcached-host" = false /\
    GlobalIsSet ctx "http.port" = true /\ penv' = penv /\
    ((strings_Contains (GlobalString ctx "http.port") ":" = false /\
      e = errorString
            "The --http switch only accepts interface:port or :port for its argument.") \/
     (strings_Contains (GlobalString ctx "http.port") ":" = true /\
      snd (net_SplitHostPort (GlobalString ctx "http.port")) = Some e)))) /\
  (GlobalBool ctx "tls" = true ->
   setupTLSProvider ctx penv = (Fatal e, penv') ->
   GlobalIsSet ctx "tls.port" = true /\ penv' = penv /\
   ((strings_Contains (GlobalString ctx "tls.port") ":" = false /\
     e = errorString
           "The --tls switch only accepts interface:port or :port for its argument.") \/
    (strings_Contains (GlobalString ctx "tls.port") ":" = true /\
     snd (net_SplitHostPort (GlobalString ctx "tls.port")) = Some e))).
Proof.
  split.
  - intros Hb. unfold setupHTTPProvider.
    destruct (GlobalIsSet ctx "http.webroot").
    { unfold orFatal.
      destruct (webroot_NewHTTPProvider (GlobalString ctx "http.webroot") penv)
        as [[p [e0|]] penv1]; [|discriminate].
      intros H. injection H as <- <-. left. eauto. }
    destruct (GlobalIsSet ctx "http.memcached-host").
    { unfold orFatal.
      destruct (memcached_NewMemcachedProvider (GlobalStringSlice ctx "http.memcached-host") penv)
        as [[p [e0|]] penv1]; [|discriminate].
      intros H. injection H as <- <-. right. left. eauto. }
    destruct (GlobalIsSet ctx "http.port").
    { right. right.
      destruct (strings_Contains (GlobalString ctx "http.port") ":"); cbn [negb] in H.
      - unfold cmd_bind in H. rewrite orFatal_pure in H.
        destruct (snd (net_SplitHostPort (GlobalString ctx "http.port"))) as [e0|];
          [|discriminate].
        injection H as <- <-. intuition.
      - injection H as <- <-. intuition. }
    rewrite Hb. discriminate.
  - intros Hb. unfold setupTLSProvider.
    destruct (GlobalIsSet ctx "tls.port").
    { destruct (strings_Contains (GlobalString ctx "tls.port") ":"); cbn [negb]; intros H.
      - unfold cmd_bind in H. rewrite orFatal_pure in H.
        destruct (snd (net_SplitHostPort (GlobalString ctx "tls.port"))) as [e0|];
          [|discriminate].
        injection H as <- <-. intuition.
      - injection H as <- <-. intuition. }
    rewrite Hb. discriminate.
Qed.

(** X10.  [setupChallenges] ends the process at once, calling no
    constructor, when none of [--http], [--tls] and [--dns] is given.  It
    sets up HTTP first: when that ends the process, TLS and DNS are never
    begun.  When it returns, at least one challenge was selected, the
    HTTP-01 provider is the one [setupHTTPProvider] returned in the initial
    environment if [--http] is given, and the responder of every challenge
    that was not selected is what it was. *)
Theorem setupChallenges_selection (ctx : cli_Context) (client : LegoClient) (penv : PEnv) :
  (GlobalBool ctx "http" = false -> GlobalBool ctx "tls" = false ->
   GlobalIsSet ctx "dns" = false ->
   setupChallenges ParseNameservers ctx client penv = (Fatal no_challenge_selected, penv)) /\
  (GlobalBool ctx "http" = true ->
   forall e penv1, setupHTTPProvider ctx penv = (Fatal e, penv1) ->
     setupChallenges ParseNameservers ctx client penv = (Fatal e, penv1)) /\
  (forall client' penv',
     setupChallenges ParseNameservers ctx client penv = (Return client', penv') ->
     (GlobalBool ctx "http" = true \/ GlobalBool ctx "tls" = true \/
      GlobalIsSet ctx "dns" = true) /\
     (GlobalBool ctx "http" = true ->
      exists penv1, setupHTTPProvider ctx penv = (Return (http01Solver client'), penv1)) /\
     (GlobalBool ctx "http" = false -> http01Solver client' = http01Solver client) /\
     (GlobalBool ctx "tls" = false -> tlsalpn01Solver client' = tlsalpn01Solver client) /\
     (GlobalIsSet ctx "dns" = false -> dnsClient client' = dnsClient client)).
Proof.
  unfold setupChallenges. split; [|split].
  - intros -> -> ->. reflexivity.
  - intros -> e penv1 H. cbn [negb andb]. unfold cmd_bind at 1 2. rewrite H. reflexivity.
  - intros client' penv' H.
    assert (Sel : GlobalBool ctx "http" = true \/ GlobalBool ctx "tls" = true \/
                  GlobalIsSet ctx "dns" = true).
    { destruct (GlobalBool ctx "http"), (GlobalBool ctx "tls"), (GlobalIsSet ctx "dns");
        auto. discriminate. }
    replace (negb (GlobalBool ctx "http") && negb (GlobalBool ctx "tls")
             && negb (GlobalIsSet ctx "dns")) with false in H
      by (destruct Sel as [-> | [-> | ->]]; rewrite ?andb_false_r; reflexivity).
    apply cmd_bind_Return in H. destruct H as (c1 & p1 & H1 & H).
    apply cmd_bind_Return in H. destruct H as (c2 & p2 & H2 & H3).
    assert (F1 : (GlobalBool ctx "http" = true ->
                  setupHTTPProvider ctx penv = (Return (http01Solver c1), p1)) /\
                 (GlobalBool ctx "http" = false -> http01Solver c1 = http01Solver client) /\
                 tlsalpn01Solver c1 = tlsalpn01Solver client /\
                 dnsClient c1 = dnsClient client).
    { destruct (GlobalBool ctx "http").
      - apply cmd_bind_Return in H1. destruct H1 as (ph & pe & HP & HS).
        rewrite orFatal_pure in HS. cbn in HS. injection HS as <- <-.
        cbn. rewrite HP. intuition discriminate.
      - injection H1 as <- <-. intuition discriminate. }
    assert (F2 : http01Solver c2 = http01Solver c1 /\
                 (GlobalBool ctx "tls" = false -> tlsalpn01Solver c2 = tlsalpn01Solver c1) /\
                 dnsClient c2 = dnsClient c1).
    { destruct (GlobalBool ctx "tls").
      - apply cmd_bind_Return in H2. destruct H2 as (pt & pe & HP & HS).
        rewrite orFatal_pure in HS. cbn in HS. injection HS as <- <-.
        cbn. intuition discriminate.
      - injection H2 as <- <-. intuition. }
    assert (F3 : http01Solver client' = http01Solver c2 /\
                 tlsalpn01Solver client' = tlsalpn01Solver c2 /\
                 (GlobalIsSet ctx "dns" = false -> dnsClient client' = dnsClient c2)).
    { destruct (GlobalIsSet ctx "dns").
      - apply cmd_bind_Return in H3. destruct H3 as (cd & pe & HP & HS).
        injection HS as <- <-. cbn. intuition discriminate.
      - injection H3 as <- <-. intuition. }
    destruct F1 as (A1 & A2 & A3 & A4), F2 as (B1 & B2 & B3), F3 as (C1 & C2 & C3).
    split; [exact Sel|]. split; [|split; [|split]].
    + intros Hh. exists p1. rewrite C1, B1. now apply A1.
    + intros Hh. rewrite C1, B1. now apply A2.
    + intros Ht. rewrite C2, (B2 Ht). exact A3.
    + intros Hd. rewrite (C3 Hd), B3. exact A4.
Qed.

End ChallengeFacts.

(** * The further theorems at work *)

Section MoreRuns.

Import Mock.

Local Open Scope list_scope.

Lemma New_reports_directory_errors_witness :
  fst (New "lego-test" "https://ca.test/dir" "kid-1" (RSAKey "k")
         (world (serving dir_without_order)))
    = (None, Some (errors_New "directory missing new order URL")).
Proof.
  assert (Fetched : doer_Get "https://ca.test/dir" (env (world (serving dir_without_order)))
                    = ((dir_without_order, None, 2%N), serving dir_without_order))
    by reflexivity.
  apply (proj2 (proj2 (proj2 (New_reports_directory_errors
           "lego-test" "https://ca.test/dir" "kid-1" (RSAKey "k")
           (world (serving dir_without_order)) dir_without_order None 2%N
           (serving dir_without_order) Fetched)))).
  - reflexivity.
  - discriminate.
  - reflexivity.
Defined.

Lemma retrievablePost_returns_last_attempt_witness :
  exists resp err t,
    fst (fst run_bad_nonce_then_refused) = Some (resp, err) /\
    last (attempts (since (world refusing) (snd run_bad_nonce_then_refused))) (None, 0)
      = (err, t) /\
    (err <> None -> resp = None) /\
    Forall (fun att => exists e, fst att = Some e /\ isNonceError e = true)
           (removelast (attempts (since (world refusing) (snd run_bad_nonce_then_refused)))).
Proof.
  assert (Run : retrievablePost acct orderURL [] (world refusing)
                = (fst (fst run_bad_nonce_then_refused),
                   snd (fst run_bad_nonce_then_refused),
                   snd run_bad_nonce_then_refused))
    by (vm_compute; reflexivity).
  exact (retrievablePost_returns_last_attempt acct orderURL [] (world refusing) _ _ _ Run).
Defined.

(** The bound of 16 attempts is reached by the CA that always answers
    bad-nonce at once, with the shortest waits. *)
Lemma Core_call_posts_at_most_16_witness :
  List.length (attempts (since (world (alwaysBadNonce 0))
                 (snd (run_call (CallRetrievablePost (Any := GoValue) orderURL []) acct
                         (world (alwaysBadNonce 0))))))
    = max_attempts.
Proof.
  apply Nat.le_antisymm.
  - exact (proj1 (Core_call_posts_at_most_16
                    (CallRetrievablePost (Any := GoValue) orderURL [])
                    acct (world (alwaysBadNonce 0)))).
  - vm_compute. repeat constructor.
Defined.

Lemma retrievablePost_waiting_witness :
  List.length (attempts (since (world (alwaysBadNonce 0)) (snd run_always_bad_nonce)))
    = S (List.length (sleeps (since (world (alwaysBadNonce 0)) (snd run_always_bad_nonce)))) /\
  0 <= total (sleeps (since (world (alwaysBadNonce 0)) (snd run_always_bad_nonce)))
    <= max_waiting.
Proof.
  assert (Run : retrievablePost acct orderURL [] (world (alwaysBadNonce 0))
                = (fst (fst run_always_bad_nonce),
                   snd (fst run_always_bad_nonce),
                   snd run_always_bad_nonce))
    by (vm_compute; reflexivity).
  exact (retrievablePost_waiting acct orderURL [] (world (alwaysBadNonce 0)) _ _ _ Run).
Defined.

Lemma signedPost_posts_once_witness :
  posts (since (world limiting) (snd (signedPost acct orderURL [] (world limiting))))
    = [EvPost orderURL "jws:kid-1:n0:https://ca.test/order"].
Proof.
  assert (Signed : JWS_SignContent (jws acct) (nonceManager acct) orderURL [] (world limiting)
                   = (inr "jws:kid-1:n0:https://ca.test/order",
                      {| nonceURL := NewNonceURL dir; nonces := [] |},
                      emit (EvSign orderURL "n0") (world limiting)))
    by (vm_compute; reflexivity).
  assert (Run : signedPost acct orderURL [] (world limiting)
                = (fst (fst (signedPost acct orderURL [] (world limiting))),
                   snd (fst (signedPost acct orderURL [] (world limiting))),
                   snd (signedPost acct orderURL [] (world limiting))))
    by (vm_compute; reflexivity).
  exact (proj2 (signedPost_posts_once acct orderURL [] (world limiting) _ _ _ Run)
           _ _ _ Signed).
Defined.

Lemma retrievablePost_fetches_nonce_at_most_once_witness :
  (List.length (heads (since MockFresh.world (snd MockFresh.run))) <= 1)%nat.
Proof.
  assert (Fresh : nonce_on_every_response (Ext := MockFresh.external)).
  { intros url body bodyType e. eexists. split; [reflexivity | discriminate]. }
  assert (Run : retrievablePost (Ext := MockFresh.external)
                  (core (RSAKey "k") []) orderURL [] MockFresh.world
                = (fst (fst MockFresh.run), snd (fst MockFresh.run), snd MockFresh.run))
    by (vm_compute; reflexivity).
  exact (proj1 (retrievablePost_fetches_nonce_at_most_once (Ext := MockFresh.external)
                  (core (RSAKey "k") []) orderURL [] MockFresh.world _ _ _ Fresh Run)).
Defined.

Lemma registry_is_one_to_one_witness :
  NewDNSChallengeProviderByName (Ctors := MockCmd.constructors) "route53"
    = @NewDNSProvider _ _ MockCmd.constructors pkg_route53.
Proof.
  exact (proj1 (registry_is_one_to_one (Ctors := MockCmd.constructors)) pkg_route53).
Defined.

Lemma setupDNS_outcomes_witness :
  exists client',
    setupDNS (Ctors := MockCmd.constructors) parse (MockCmd.flags [("dns", "route53")] [])
      (dnsClient MockCmd.client0) []
      = (Return client', ["route53"]) /\
    dns01Provider client' = Some (MockCmd.Dns "route53").
Proof.
  apply (proj2 (proj2 (setupDNS_outcomes (Ctors := MockCmd.constructors) parse (MockCmd.flags [("dns", "route53")] [])
                         (dnsClient MockCmd.client0) []))
           (@NewDNSProvider _ _ MockCmd.constructors pkg_route53)).
  - vm_compute. do 48 right. left. reflexivity.
  - reflexivity.
Defined.

Lemma selected_challenge_fails_only_on_its_options_witness :
  strings_Contains (GlobalString (MockCmd.flags [("http.port", "8080")] ["http"]) "http.port") ":"
    = false.
Proof.
  assert (Run : setupHTTPProvider (Solv := MockCmd.solvers)
                  (MockCmd.flags [("http.port", "8080")] ["http"]) []
                = (Fatal (errorString
                     "The --http switch only accepts interface:port or :port for its argument."),
                   []))
    by (vm_compute; reflexivity).
  destruct (proj1 (selected_challenge_fails_only_on_its_options
                     (Solv := MockCmd.solvers)
                     (MockCmd.flags [("http.port", "8080")] ["http"]) [] [] _)
              eq_refl Run) as [[W _] | [(_ & M & _) | (_ & _ & _ & _ & [[C _] | [C _]])]].
  - discriminate W.
  - discriminate M.
  - exact C.
  - discriminate C.
Defined.

Lemma setupChallenges_selection_witness :
  setupChallenges (Ctors := MockCmd.constructors) (Solv := MockCmd.solvers) parse
    (MockCmd.flags [("http.webroot", "/nowhere"); ("dns", "route53")] ["http"])
    MockCmd.client0 []
    = (Fatal (errorString "webroot path does not exist"), ["webroot"]).
Proof.
  apply (proj1 (proj2 (setupChallenges_selection
           (Ctors := MockCmd.constructors) (Solv := MockCmd.solvers) parse
           (MockCmd.flags [("http.webroot", "/nowhere"); ("dns", "route53")] ["http"])
           MockCmd.client0 []))).
  - reflexivity.
  - vm_compute. reflexivity.
Defined.

End MoreRuns.

(** * The budget of the retry loop *)

Section BudgetFacts.

Context {Env Any : Type} `{Ext : External Env Any}.

Local Abbreviation World := (World Env).
Local Open Scope list_scope.

Implicit Types (a : Core) (w : World) (uri : string) (content : bytes).



End BudgetFacts.

Section BudgetRuns.

Import Mock.

Local Open Scope list_scope.



End BudgetRuns.
